(** * A shallow embedding of [tinybear/html/validate_html.py]

    Python strings are modelled as lists of ASCII characters, on which
    [str.isdigit], [str.isalnum] and [str.lower] are exact; the theorems
    over this model speak of ASCII inputs only.  Module [UnicodeEntity]
    embeds the entity scan again over Unicode code points.  Positions are
    [nat] offsets.  [str.find] answering [-1] is modelled by [None].
    The external html5lib parser is a parameter [parse] of [validate_html]
    that returns the soup: a [Tag] named "[document]" whose children are
    the parsed document. *)

From Stdlib Require Import Ascii String List Arith Lia Bool.
Import ListNotations.

Open Scope list_scope.

Definition str := list ascii.

(** String literals of the development. *)
Definition lit (s : string) : str := list_ascii_of_string s.

(** ** Python string primitives *)

Fixpoint is_prefix (sub s : str) : bool :=
  match sub, s with
  | [], _ => true
  | c :: sub', d :: s' => Ascii.eqb c d && is_prefix sub' s'
  | _ :: _, [] => false
  end.

(** Offset of the first occurrence of [sub] in [s]. *)
Fixpoint find_from (s sub : str) : option nat :=
  if is_prefix sub s then Some 0
  else match s with
       | [] => None
       | _ :: s' => option_map S (find_from s' sub)
       end.

(** [html.find(sub, start)]: [None] stands for [-1]. *)
Definition find (html sub : str) (start : nat) : option nat :=
  if start <=? length html
  then option_map (Nat.add start) (find_from (skipn start html) sub)
  else None.

(** [html[a:b]] for [0 <= a]. *)
Definition slice (html : str) (a b : nat) : str :=
  firstn (b - a) (skipn a html).

(** [html[i]] for [i < len(html)]. *)
Definition char_at (html : str) (i : nat) : ascii := nth i html " "%char.

Definition is_ascii_digit (c : ascii) : bool :=
  let n := nat_of_ascii c in (48 <=? n) && (n <=? 57).

Definition is_ascii_upper (c : ascii) : bool :=
  let n := nat_of_ascii c in (65 <=? n) && (n <=? 90).

Definition is_ascii_lower (c : ascii) : bool :=
  let n := nat_of_ascii c in (97 <=? n) && (n <=? 122).

(** [str.isalnum] on one ASCII character. *)
Definition is_alnum (c : ascii) : bool :=
  is_ascii_digit c || is_ascii_upper c || is_ascii_lower c.

(** [str.isdigit] on ASCII strings: non-empty and all digits. *)
Definition isdigit (s : str) : bool :=
  match s with [] => false | _ => forallb is_ascii_digit s end.

(** [str.isspace] on one ASCII character: \t \n \v \f \r, \x1c-\x1f, space. *)
Definition is_space (c : ascii) : bool :=
  let n := nat_of_ascii c in
  ((9 <=? n) && (n <=? 13)) || ((28 <=? n) && (n <=? 32)).

(** [str.lower] on ASCII. *)
Definition lower_char (c : ascii) : ascii :=
  if is_ascii_upper c then ascii_of_nat (nat_of_ascii c + 32) else c.

Definition lower (s : str) : str := map lower_char s.

(** [str.strip()] *)
Fixpoint lstrip (s : str) : str :=
  match s with
  | c :: s' => if is_space c then lstrip s' else s
  | [] => []
  end.

Definition strip (s : str) : str := rev (lstrip (rev (lstrip s))).

(** ** Errors *)

(** The [ParsingError] messages raised by the module, one constructor per
    message shape, with the data the message carries. *)
Inductive ParsingError :=
  | DisallowedTag (name : string)                  (* Tag '...' is not allowed *)
  | UnescapedAmpersand (snippet : str)              (* Text contains unescaped & *)
  | InvalidEntity (entity snippet : str)            (* Invalid HTML entity *)
  | RootLevelText                                   (* Text must be wrapped ... *)
  | MalformedList (list_name child_name : string)   (* <ul> can only contain <li> *)
  | MisplacedListItem (parent_name : string)        (* <li> must be a direct child *)
  | EmptyParagraph                                  (* Empty or nested <p> tags *)
  | UnclosedSpecial (pos : nat) (snippet : str)     (* Unclosed tag at position *)
  | UnclosedAngle (pos : nat) (snippet : str)       (* Unclosed angle bracket *)
  | UnclosedTag (name : str) (pos : nat) (snippet : str) (* Unclosed <name> tag *)
  | NoneHasNoChildren.                              (* AttributeError on None *)

(** A check returns normally or raises. *)
Inductive outcome := Ok | Err (e : ParsingError).

Definition seq_outcome (a : outcome) (k : unit -> outcome) : outcome :=
  match a with Ok => k tt | Err e => Err e end.

Notation "a ;; b" := (seq_outcome a (fun _ => b)) (at level 61, right associativity).

(** A [for] loop whose body may raise: the first raise ends it. *)
Fixpoint for_each {A} (body : A -> outcome) (l : list A) : outcome :=
  match l with
  | [] => Ok
  | x :: l' => body x ;; for_each body l'
  end.

(** ** [_check_entity_with_ampersand] and [_check_for_unescaped_ampersand] *)

Definition known_entities : list str :=
  [lit "amp"; lit "lt"; lit "gt"; lit "quot"; lit "apos"].

Definition str_eqb (a b : str) : bool := if list_eq_dec ascii_dec a b then true else false.

Definition str_in (s : str) (l : list str) : bool := existsb (str_eqb s) l.

Definition valid_entity (entity : str) : bool :=
  (is_prefix (lit "#") entity && isdigit (skipn 1 entity))
  || str_in entity known_entities.

(** Returns the semicolon position ([inr]) or raises ([inl]). *)
Definition check_entity_with_ampersand (html : str) (position : nat)
  : ParsingError + nat :=
  match find html (lit ";") (S position) with
  | None => inl (UnescapedAmpersand (slice html position (position + 50)))
  | Some semicolon_pos =>
      let entity := slice html (S position) semicolon_pos in
      if valid_entity entity then inr semicolon_pos
      else inl (InvalidEntity entity (slice html position (position + 50)))
  end.

(** The [while position < len(html)] loop, run with fuel; the fuel given by
    [check_for_unescaped_ampersand] is never exhausted, since [position]
    grows at each round. *)
Fixpoint amp_loop (fuel : nat) (html : str) (position : nat) : outcome :=
  match fuel with
  | 0 => Ok
  | S fuel' =>
      if position <? length html then
        if Ascii.eqb (char_at html position) "&"%char then
          match check_entity_with_ampersand html position with
          | inl e => Err e
          | inr semicolon_pos => amp_loop fuel' html (S semicolon_pos)
          end
        else amp_loop fuel' html (S position)
      else Ok
  end.

Definition check_for_unescaped_ampersand (html : str) : outcome :=
  amp_loop (S (length html)) html 0.



(** ** [_find_tag_end], [_check_nested_tags], [_check_for_unclosed_tags] *)

Definition is_name_char (c : ascii) : bool :=
  is_alnum c || Ascii.eqb c "-"%char || Ascii.eqb c "_"%char.

(** Length of the run of name characters at the head of [s]. *)
Fixpoint name_run (s : str) : nat :=
  match s with
  | c :: s' => if is_name_char c then S (name_run s') else 0
  | [] => 0
  end.

(** Returns (tag_name, tag_end, is_closing). *)
Definition find_tag_end (html : str) (start_pos : nat) : str * nat * bool :=
  if (start_pos <? length html) && Ascii.eqb (char_at html start_pos) "<"%char
  then
    let tag_start := S start_pos in
    let is_closing :=
      (tag_start <? length html) && Ascii.eqb (char_at html tag_start) "/"%char in
    let tag_start := if is_closing then S tag_start else tag_start in
    let tag_end := tag_start + name_run (skipn tag_start html) in
    (lower (slice html tag_start tag_end), tag_end, is_closing)
  else ([], start_pos, false).

Definition is_self_closing_tag (tag_name : str) : bool :=
  str_in tag_name [lit "br"; lit "img"; lit "hr"; lit "input"; lit "meta"; lit "link"].

Definition is_special_tag (tag_name : str) : bool :=
  str_in tag_name [lit "!doctype"; lit "!--"].

(** [html[max(0, p-20):p+20]] *)
Definition window (html : str) (p : nat) : str := slice html (p - 20) (p + 20).

(** The [while pos < len(html) and nested_level > 0] loop of
    [_check_nested_tags]; returns the final [nested_level]. *)
Fixpoint nest_loop (fuel : nat) (html tag_name : str) (nested_level pos : nat)
  : nat :=
  match fuel with
  | 0 => nested_level
  | S fuel' =>
      if (pos <? length html) && (0 <? nested_level) then
        match find html (lit "<" ++ tag_name) pos,
              find html (lit "</" ++ tag_name) pos with
        | Some o, None => nest_loop fuel' html tag_name (S nested_level) (S o)
        | Some o, Some c =>
            if o <? c then nest_loop fuel' html tag_name (S nested_level) (S o)
            else nest_loop fuel' html tag_name (nested_level - 1) (S c)
        | None, Some c => nest_loop fuel' html tag_name (nested_level - 1) (S c)
        | None, None => nested_level
        end
      else nested_level
  end.

Definition check_nested_tags (html tag_name : str) (start_pos : nat) : outcome :=
  let closing_tag := lit "</" ++ tag_name ++ lit ">" in
  let next_open := find html (lit "<" ++ tag_name) (S start_pos) in
  let next_close := find html closing_tag (S start_pos) in
  let first_is_close :=
    match next_open, next_close with
    | None, _ => true
    | Some o, Some c => c <? o
    | Some _, None => false
    end in
  if first_is_close then
    match next_close with
    | None => Err (UnclosedTag tag_name start_pos (window html start_pos))
    | Some _ => Ok
    end
  else
    if 0 <? nest_loop (length html) html tag_name 1 (S start_pos)
    then Err (UnclosedTag tag_name start_pos (window html start_pos))
    else Ok.

(** One round of the [while current_pos < len(html)] loop of
    [_check_for_unclosed_tags]. *)
Inductive scan_step := Stop | Raise (e : ParsingError) | Next (q : nat).

Definition unclosed_step (html : str) (current_pos : nat) : scan_step :=
  if current_pos <? length html then
    if negb (Ascii.eqb (char_at html current_pos) "<"%char) then Next (S current_pos)
    else
      let '(tag_name, _, is_closing_tag) := find_tag_end html current_pos in
      match tag_name with
      | [] => Next (S current_pos)
      | _ =>
          if is_special_tag tag_name then
            match find html (lit ">") current_pos with
            | None => Raise (UnclosedSpecial current_pos (window html current_pos))
            | Some closing_angle_pos => Next (S closing_angle_pos)
            end
          else
            match find html (lit ">") current_pos with
            | None => Raise (UnclosedAngle current_pos (window html current_pos))
            | Some closing_angle_pos =>
                if negb is_closing_tag && negb (is_self_closing_tag tag_name) then
                  match check_nested_tags html tag_name current_pos with
                  | Err e => Raise e
                  | Ok => Next (S closing_angle_pos)
                  end
                else Next (S closing_angle_pos)
            end
      end
  else Stop.

Fixpoint unclosed_loop (fuel : nat) (html : str) (current_pos : nat) : outcome :=
  match fuel with
  | 0 => Ok
  | S fuel' =>
      match unclosed_step html current_pos with
      | Stop => Ok
      | Raise e => Err e
      | Next q => unclosed_loop fuel' html q
      end
  end.

Definition check_for_unclosed_tags (html : str) : outcome :=
  unclosed_loop (S (length html)) html 0.

(** The positions the scan of [_check_for_unclosed_tags] visits. *)
Inductive Reaches (html : str) : nat -> Prop :=
  | reaches_start : Reaches html 0
  | reaches_next p q : Reaches html p -> unclosed_step html p = Next q -> Reaches html q.



(** ** The parsed tree and the four tree checks *)

(** A bs4 node: a tag with its children, or a text node. *)
#[local] Set Warnings "-register-all".
Inductive node :=
  | Tag (name : string) (children : list node)
  | Text (content : str).

(** The tags of the subtree [n] in document order, each with the name of
    its parent, its own name and its children. *)
Fixpoint elems (parent : string) (n : node) : list (string * string * list node) :=
  match n with
  | Text _ => []
  | Tag nm cs => (parent, nm, cs) :: flat_map (elems nm) cs
  end.

(** [soup.find_all(True)]: the descendant tags of the soup. *)
Definition soup_elems (soup : node) : list (string * string * list node) :=
  match soup with
  | Tag nm cs => flat_map (elems nm) cs
  | Text _ => []
  end.

Definition check_all_tags_are_allowed (soup : node) (allowed_tags : list string)
  : outcome :=
  for_each (fun '(_, nm, _) =>
              if existsb (String.eqb nm) allowed_tags then Ok
              else Err (DisallowedTag nm))
           (soup_elems soup).

Definition is_list_name (nm : string) : bool :=
  String.eqb nm "ul" || String.eqb nm "ol".

Definition check_list_structure (soup : node) : outcome :=
  for_each (fun '(_, nm, cs) =>
              if is_list_name nm then
                for_each (fun child =>
                            match child with
                            | Tag cn _ => if String.eqb cn "li" then Ok
                                          else Err (MalformedList nm cn)
                            | Text _ => Ok
                            end) cs
              else Ok)
           (soup_elems soup) ;;
  for_each (fun '(parent, nm, _) =>
              if String.eqb nm "li" then
                if is_list_name parent then Ok else Err (MisplacedListItem parent)
              else Ok)
           (soup_elems soup).

(** The text nodes of a subtree, in document order. *)
Fixpoint texts (n : node) : list str :=
  match n with
  | Text s => [s]
  | Tag _ cs => flat_map texts cs
  end.

(** [tag.get_text(strip=True)]: each string stripped, joined with "". *)
Definition get_text_strip (n : node) : str := concat (map strip (texts n)).

Definition check_paragraphs (soup : node) : outcome :=
  for_each (fun '(_, nm, cs) =>
              if String.eqb nm "p" then
                match get_text_strip (Tag nm cs) with
                | [] => Err EmptyParagraph
                | _ => Ok
                end
              else Ok)
           (soup_elems soup).

(** [soup.find("body")], as the children of the first [body] tag. *)
Definition find_body (soup : node) : option (list node) :=
  option_map (fun '(_, _, cs) => cs)
             (List.find (fun '(_, nm, _) => String.eqb nm "body") (soup_elems soup)).

(** With no [body], [body.children] raises [AttributeError]. *)
Definition check_for_root_level_text (soup : node) : outcome :=
  match find_body soup with
  | None => Err NoneHasNoChildren
  | Some children =>
      for_each (fun child =>
                  match child with
                  | Text s => match strip s with [] => Ok | _ => Err RootLevelText end
                  | Tag _ _ => Ok
                  end) children
  end.

(** ** [validate_html] *)

Record config := {
  allowed_tags : list string;
  is_text_at_root_level_allowed : bool
}.

Definition default_allowed_tags : list string :=
  ["a"; "b"; "body"; "em"; "head"; "html"; "i"; "li"; "ol"; "p"; "strong";
   "sub"; "sup"; "u"; "ul"]%string.

Definition default_config : config :=
  {| allowed_tags := default_allowed_tags; is_text_at_root_level_allowed := false |}.

Definition validate_html (parse : str -> node) (cfg : config) (html : str) : outcome :=
  match html with
  | [] => Ok
  | _ =>
      check_for_unescaped_ampersand html ;;
      let soup := parse html in
      check_all_tags_are_allowed soup (allowed_tags cfg) ;;
      check_list_structure soup ;;
      check_paragraphs soup ;;
      (if is_text_at_root_level_allowed cfg then Ok
       else check_for_root_level_text soup) ;;
      check_for_unclosed_tags html
  end.

(** The soup html5lib builds for a fragment of body content, one without
    the title, meta, style, script, base, link or frameset elements html5lib
    places elsewhere: [[document] > html > (head, body > ...)]. *)
Definition html5lib_soup (body : list node) : node :=
  Tag "[document]" [Tag "html" [Tag "head" []; Tag "body" body]].

(** ** Specification-side definitions *)

(** The checks [validate_html] runs on a non-empty string, in order. *)
Definition validate_stages (parse : str -> node) (cfg : config) (html : str)
  : list outcome :=
  let soup := parse html in
  [check_for_unescaped_ampersand html;
   check_all_tags_are_allowed soup (allowed_tags cfg);
   check_list_structure soup;
   check_paragraphs soup]
  ++ (if is_text_at_root_level_allowed cfg then [] else [check_for_root_level_text soup])
  ++ [check_for_unclosed_tags html].

(** The first failing stage decides. *)
Definition run_first (stages : list outcome) : outcome := for_each (fun o => o) stages.

(** The four checks on the parsed tree, in the order [validate_html] runs them. *)
Definition tree_checks (parse : str -> node) (cfg : config) (html : str) : outcome :=
  let soup := parse html in
  check_all_tags_are_allowed soup (allowed_tags cfg) ;;
  check_list_structure soup ;;
  check_paragraphs soup ;;
  (if is_text_at_root_level_allowed cfg then Ok else check_for_root_level_text soup).

(** Rule (a): every tag child of a [ul]/[ol] is an [li]. *)
Definition list_rule_children (soup : node) : Prop :=
  forall parent nm cs, In (parent, nm, cs) (soup_elems soup) ->
    is_list_name nm = true -> forall cn ccs, In (Tag cn ccs) cs -> cn = "li"%string.

(** Rule (b): the parent of every [li] is a [ul]/[ol]. *)
Definition list_rule_parent (soup : node) : Prop :=
  forall parent cs, In (parent, "li"%string, cs) (soup_elems soup) ->
    is_list_name parent = true.

(** [q] is the first position after [p] holding [c]. *)
Definition next_char (html : str) (c : ascii) (p q : nat) : Prop :=
  p < q < length html /\ char_at html q = c
  /\ forall k, p < k < q -> char_at html k <> c.

(** The entity names of the spec: amp, lt, gt, quot, apos, or '#' followed
    by one or more decimal digits. *)
Definition recognized_entity (e : str) : Prop :=
  In e known_entities
  \/ exists ds, e = "#"%char :: ds /\ ds <> []
                /\ Forall (fun c => is_ascii_digit c = true) ds.

(** The '&' at [p] begins a recognised entity: the text strictly between it
    and the next ';' is a recognised entity name. *)
Definition entity_ok_at (html : str) (p : nat) : Prop :=
  exists semi, next_char html ";"%char p semi
               /\ recognized_entity (slice html (S p) semi).

(** The balanced-nesting search of the spec.  [events] lists, in offset
    order, the occurrences of ["<" ++ name] ([true]) and ["</" ++ name]
    ([false]) in [s]; [closes d evs] says the depth, starting at [d],
    reaches 0. *)
Fixpoint events (name s : str) : list bool :=
  match s with
  | [] => []
  | _ :: s' =>
      (if is_prefix (lit "<" ++ name) s then [true]
       else if is_prefix (lit "</" ++ name) s then [false] else [])
      ++ events name s'
  end.

Fixpoint closes (depth : nat) (evs : list bool) : bool :=
  match evs with
  | [] => false
  | true :: evs' => closes (S depth) evs'
  | false :: evs' => match depth with
                     | 0 | 1 => true
                     | S d => closes d evs'
                     end
  end.

(** The search for the opening tag at [start]: occurrences after it. *)
Definition balanced_closes (html name : str) (start : nat) : bool :=
  closes 1 (events name (skipn (S start) html)).

(** A tag name as [_find_tag_end] returns it: non-empty, not starting with '/'. *)
Definition name_ok (name : str) : Prop :=
  match name with c :: _ => c <> "/"%char | [] => False end.

Definition soup_ul_p :=
  html5lib_soup [Tag "ul" [Tag "li" [Text (lit "a")]; Tag "p" [Text (lit "b")]]].
Definition soup_li := html5lib_soup [Tag "li" [Text (lit "a")]].
Definition soup_p_empty := html5lib_soup [Tag "p" []].
Definition soup_p_spaces := html5lib_soup [Tag "p" [Text (lit "   ")]].
Definition soup_p_x := html5lib_soup [Tag "p" [Text (lit "x")]].
Definition soup_unclosed_a :=
  html5lib_soup [Tag "p" [Text (lit "Unclosed "); Tag "a" [Text (lit "link")]]].
Definition soup_div := html5lib_soup [Tag "div" [Text (lit "x")]].
Definition soup_p_B := html5lib_soup [Tag "p" [Tag "b" [Text (lit "x")]]].
Definition soup_p_x_amp := html5lib_soup [Tag "p" [Text (lit "x")]; Text (lit "&")].


(** A frameset document: html5lib builds no [body]. *)
Definition soup_frameset : node :=
  Tag "[document]" [Tag "html" [Tag "head" []; Tag "frameset" []]].

Definition config_frameset : config :=
  {| allowed_tags := ["html"; "head"; "frameset"]%string;
     is_text_at_root_level_allowed := false |}.

(** ** The entity scan over Unicode code points *)

(** The definitions above take Python strings to be ASCII.  This module
    embeds [_check_entity_with_ampersand] and [_check_for_unescaped_ampersand]
    again, with a string as the list of its Unicode code points and Python's
    [str.isdigit] on a one-character string as the parameter
    [is_digit_char]. *)
Module UnicodeEntity.

Definition ustr := list nat.

(** An ASCII literal as code points. *)
Definition ulit (s : string) : ustr := map nat_of_ascii (list_ascii_of_string s).

Fixpoint is_prefix (sub s : ustr) : bool :=
  match sub, s with
  | [], _ => true
  | c :: sub', d :: s' => Nat.eqb c d && is_prefix sub' s'
  | _ :: _, [] => false
  end.

Fixpoint find_from (s sub : ustr) : option nat :=
  if is_prefix sub s then Some 0
  else match s with
       | [] => None
       | _ :: s' => option_map S (find_from s' sub)
       end.

(** [html.find(sub, start)]: [None] stands for [-1]. *)
Definition find (html sub : ustr) (start : nat) : option nat :=
  if start <=? length html
  then option_map (Nat.add start) (find_from (skipn start html) sub)
  else None.

(** [html[a:b]] for [0 <= a]. *)
Definition slice (html : ustr) (a b : nat) : ustr :=
  firstn (b - a) (skipn a html).

(** [html[i]] for [i < len(html)]. *)
Definition char_at (html : ustr) (i : nat) : nat := nth i html 32.

(** The two [ParsingError]s the entity scan raises. *)
Inductive entity_error :=
  | UnescapedAmpersand (snippet : ustr)
  | InvalidEntity (entity snippet : ustr).

Inductive outcome := Ok | Err (e : entity_error).

Definition known_entities : list ustr :=
  [ulit "amp"; ulit "lt"; ulit "gt"; ulit "quot"; ulit "apos"].

Definition str_in (s : ustr) (l : list ustr) : bool :=
  existsb (fun t => if list_eq_dec Nat.eq_dec s t then true else false) l.

Section Scan.

Variable is_digit_char : nat -> bool.

(** [s.isdigit()]: non-empty, and every character a digit. *)
Definition isdigit (s : ustr) : bool :=
  match s with
  | [] => false
  | _ => forallb is_digit_char s
  end.

Definition valid_entity (entity : ustr) : bool :=
  (is_prefix (ulit "#") entity && isdigit (skipn 1 entity))
  || str_in entity known_entities.

Definition check_entity_with_ampersand (html : ustr) (position : nat)
  : entity_error + nat :=
  match find html (ulit ";") (S position) with
  | None => inl (UnescapedAmpersand (slice html position (position + 50)))
  | Some semicolon_pos =>
      let entity := slice html (S position) semicolon_pos in
      if valid_entity entity then inr semicolon_pos
      else inl (InvalidEntity entity (slice html position (position + 50)))
  end.

Fixpoint amp_loop (fuel : nat) (html : ustr) (position : nat) : outcome :=
  match fuel with
  | 0 => Ok
  | S fuel' =>
      if position <? length html then
        if Nat.eqb (char_at html position) 38 then
          match check_entity_with_ampersand html position with
          | inl e => Err e
          | inr semicolon_pos => amp_loop fuel' html (S semicolon_pos)
          end
        else amp_loop fuel' html (S position)
      else Ok
  end.

Definition check_for_unescaped_ampersand (html : ustr) : outcome :=
  amp_loop (S (length html)) html 0.

End Scan.

(** Python's [str.isdigit] on the code points up to 255: '0' to '9', and
    '²', '³' and '¹'. *)
Definition py_isdigit_latin1 (c : nat) : bool :=
  ((48 <=? c) && (c <=? 57)) || (c =? 178) || (c =? 179) || (c =? 185).

(** "<p>&#²;</p>": '²' is SUPERSCRIPT TWO, code point 178. *)
Definition superscript_entity_input : ustr :=
  ulit "<p>&#" ++ [178] ++ ulit ";</p>".

End UnicodeEntity.

(** The soups html5lib builds: the document's only element child is
    [html]; around it the document holds only strings (a doctype,
    comments). *)
Definition html5lib_shaped (soup : node) : Prop :=
  exists pre html_children post,
    soup = Tag "[document]"
             (map Text pre ++ Tag "html" html_children :: map Text post).

(** ** Generic lemmas *)

Lemma seq_outcome_Ok a k : seq_outcome a k = Ok <-> a = Ok /\ k tt = Ok.
Proof. destruct a; simpl; intuition congruence. Qed.

Lemma for_each_Ok {A} (body : A -> outcome) l :
  for_each body l = Ok <-> Forall (fun x => body x = Ok) l.
Proof.
  induction l as [|x l IH]; simpl.
  - split; auto.
  - rewrite seq_outcome_Ok, IH. split.
    + intros [H1 H2]; constructor; auto.
    + intros H; inversion H; auto.
Qed.

Lemma for_each_Err {A} (body : A -> outcome) l e :
  for_each body l = Err e <->
  exists pre x post, l = pre ++ x :: post
    /\ Forall (fun y => body y = Ok) pre /\ body x = Err e.
Proof.
  induction l as [|x l IH]; simpl.
  - split; [discriminate|]. intros (pre & y & post & Hl & _). destruct pre; discriminate.
  - destruct (body x) eqn:Hx; simpl.
    + rewrite IH. split.
      * intros (pre & y & post & -> & Hpre & Hy). exists (x :: pre), y, post.
        repeat split; auto.
      * intros (pre & y & post & Hl & Hpre & Hy). destruct pre as [|z pre].
        -- injection Hl as -> ->. congruence.
        -- injection Hl as -> ->. inversion Hpre; subst. exists pre, y, post. auto.
    + split.
      * intros [= <-]. exists [], x, l. auto.
      * intros (pre & y & post & Hl & Hpre & Hy). destruct pre as [|z pre].
        -- injection Hl as -> ->. congruence.
        -- injection Hl as -> ->. inversion Hpre; congruence.
Qed.

Lemma for_each_Err_in {A} (body : A -> outcome) l e :
  for_each body l = Err e -> exists x, In x l /\ body x = Err e.
Proof.
  rewrite for_each_Err. intros (pre & x & post & -> & _ & Hx).
  exists x. split; auto. apply in_or_app. right. left. reflexivity.
Qed.

Lemma outcome_not_Ok o : o <> Ok -> exists e, o = Err e.
Proof. destruct o as [|e]; [contradiction|eauto]. Qed.

Lemma for_each_Ok_ok {A} (body : A -> outcome) l :
  (forall x, In x l -> body x = Ok) -> for_each body l = Ok.
Proof.
  intros H. apply for_each_Ok. apply Forall_forall. exact H.
Qed.

(** ** Which check raises which error *)


Lemma check_nested_tags_err html name pos e :
  check_nested_tags html name pos = Err e -> e = UnclosedTag name pos (window html pos).
Proof.
  unfold check_nested_tags.
  destruct (match _ with None => true | Some _ => _ end).
  - destruct (find html _ (S pos)); congruence.
  - destruct (0 <? _); congruence.
Qed.





(** ** C9 *)

(** C9: for every configuration, validating the empty string returns Ok
    without running any check. *)
Theorem validate_html_empty (parse : str -> node) (cfg : config) :
  validate_html parse cfg [] = Ok.
Proof. reflexivity. Qed.

(** ** C2 *)

(** C2: on a non-empty string, [validate_html] is the linear pipeline
    ampersand scan, tag whitelist, list structure, paragraphs, root-level
    text, unclosed tags: its result is the error of the first failing stage
    (the earlier stages all passing), and an ampersand/entity error is
    reported whatever the later stages say. *)
Theorem validate_html_pipeline (parse : str -> node) (cfg : config) (html : str)
  (Hne : html <> []) :
  validate_html parse cfg html = run_first (validate_stages parse cfg html)
  /\ (forall e, validate_html parse cfg html = Err e <->
        exists pre post, validate_stages parse cfg html = pre ++ Err e :: post
                         /\ Forall (fun o => o = Ok) pre)
  /\ (forall e, check_for_unescaped_ampersand html = Err e ->
        validate_html parse cfg html = Err e).
Proof.
  assert (Hrun : validate_html parse cfg html = run_first (validate_stages parse cfg html)).
  { destruct html as [|c html]; [contradiction|].
    unfold validate_html, run_first, validate_stages. simpl.
    destruct (check_for_unescaped_ampersand _); simpl; auto.
    destruct (check_all_tags_are_allowed _ _); simpl; auto.
    destruct (check_list_structure _); simpl; auto.
    destruct (check_paragraphs _); simpl; auto.
    destruct (is_text_at_root_level_allowed cfg); simpl.
    - destruct (check_for_unclosed_tags _); reflexivity.
    - destruct (check_for_root_level_text _); simpl; auto.
      destruct (check_for_unclosed_tags _); reflexivity. }
  split; [exact Hrun|]. split.
  - intros e. rewrite Hrun. unfold run_first. rewrite for_each_Err.
    split.
    + intros (pre & x & post & Hl & Hpre & Hx). subst x. exists pre, post. auto.
    + intros (pre & post & Hl & Hpre). exists pre, (Err e), post. auto.
  - intros e He. destruct html as [|c html]; [contradiction|].
    unfold validate_html. rewrite He. reflexivity.
Qed.

(** ** C3 *)

(** C3 (counterexample): "<div>x" has an unclosed [div] and a disallowed
    tag; html5lib builds [soup_div] for it, and [validate_html] reports the
    disallowed tag, not the closure error. *)
Lemma validate_html_tree_error_before_closure :
  check_for_unclosed_tags (lit "<div>x")
    = Err (UnclosedTag (lit "div") 0 (lit "<div>x"))
  /\ check_all_tags_are_allowed soup_div default_allowed_tags
    = Err (DisallowedTag "div")
  /\ validate_html (fun _ => soup_div) default_config (lit "<div>x")
    = Err (DisallowedTag "div").
Proof. vm_compute. repeat split. Qed.

(** C3 (amended): [validate_html] runs the ampersand/entity scan before
    parsing, then the tree checks, and the unclosed-tag scan last.  An
    ampersand/entity error is reported first; when the scan passes, a
    tree-check error is reported (even if the string also has an unclosed
    tag); the unclosed-tag scan decides only when all earlier checks pass. *)
Theorem validate_html_closure_scan_last (parse : str -> node) (cfg : config)
  (html : str) (e : ParsingError) (Hne : html <> []) :
  (check_for_unescaped_ampersand html = Err e -> validate_html parse cfg html = Err e)
  /\ (check_for_unescaped_ampersand html = Ok -> tree_checks parse cfg html = Err e ->
      validate_html parse cfg html = Err e)
  /\ (check_for_unescaped_ampersand html = Ok -> tree_checks parse cfg html = Ok ->
      validate_html parse cfg html = check_for_unclosed_tags html).
Proof.
  destruct html as [|c html]; [contradiction|].
  unfold validate_html, tree_checks.
  repeat split; intros Ha; rewrite Ha; simpl; auto.
  - intros Ht.
    destruct (check_all_tags_are_allowed _ _); simpl in *; auto.
    destruct (check_list_structure _); simpl in *; auto.
    destruct (check_paragraphs _); simpl in *; auto.
    destruct (is_text_at_root_level_allowed cfg); simpl in *; [discriminate|].
    destruct (check_for_root_level_text _); simpl in *; congruence.
  - intros Ht.
    destruct (check_all_tags_are_allowed _ _); simpl in *; [|discriminate].
    destruct (check_list_structure _); simpl in *; [|discriminate].
    destruct (check_paragraphs _); simpl in *; [|discriminate].
    destruct (is_text_at_root_level_allowed cfg); simpl in *; [reflexivity|].
    destruct (check_for_root_level_text _); simpl in *; congruence.
Qed.

(** ** C8 *)


(** ** C6 *)

Lemma list_children_for_Ok soup :
  for_each (fun '(_, nm, cs) =>
              if is_list_name nm then
                for_each (fun child =>
                            match child with
                            | Tag cn _ => if String.eqb cn "li" then Ok
                                          else Err (MalformedList nm cn)
                            | Text _ => Ok
                            end) cs
              else Ok)
           (soup_elems soup) = Ok <-> list_rule_children soup.
Proof.
  rewrite for_each_Ok, Forall_forall. unfold list_rule_children. split.
  - intros H parent nm cs Hin Hl cn ccs Hc.
    specialize (H _ Hin). simpl in H. rewrite Hl in H.
    apply for_each_Ok in H. rewrite Forall_forall in H. specialize (H _ Hc).
    simpl in H. destruct (String.eqb cn "li") eqn:E; [|discriminate].
    apply String.eqb_eq. exact E.
  - intros H [[parent nm] cs] Hin. destruct (is_list_name nm) eqn:Hl; [|reflexivity].
    apply for_each_Ok_ok. intros [cn ccs|s] Hc; [|reflexivity].
    rewrite (H _ _ _ Hin Hl _ _ Hc). reflexivity.
Qed.

Lemma list_parent_for_Ok soup :
  for_each (fun '(parent, nm, _) =>
              if String.eqb nm "li" then
                if is_list_name parent then Ok else Err (MisplacedListItem parent)
              else Ok)
           (soup_elems soup) = Ok <-> list_rule_parent soup.
Proof.
  rewrite for_each_Ok, Forall_forall. unfold list_rule_parent. split.
  - intros H parent cs Hin. specialize (H _ Hin). simpl in H.
    destruct (is_list_name parent); [reflexivity|discriminate].
  - intros H [[parent nm] cs] Hin. destruct (String.eqb nm "li") eqn:E; [|reflexivity].
    apply String.eqb_eq in E. subst nm. rewrite (H _ _ Hin). reflexivity.
Qed.

(** C6: the list check enforces exactly two rules: (a) every tag child of a
    [ul]/[ol] is an [li], else [MalformedList]; (b) the parent of every [li]
    is a [ul]/[ol], else [MisplacedListItem]; text children of a list are
    not looked at.  html5lib's trees of "<ul><li>a</li><p>b</p></ul>" and
    "<li>a</li>" fail with [MalformedList] and [MisplacedListItem]. *)
Theorem list_structure_rules :
  (forall soup,
     (check_list_structure soup = Ok <->
      list_rule_children soup /\ list_rule_parent soup)
     /\ (~ list_rule_children soup ->
         exists nm cn, check_list_structure soup = Err (MalformedList nm cn))
     /\ (list_rule_children soup -> ~ list_rule_parent soup ->
         exists parent, check_list_structure soup = Err (MisplacedListItem parent)))
  /\ check_list_structure soup_ul_p = Err (MalformedList "ul" "p")
  /\ check_list_structure soup_li = Err (MisplacedListItem "body").
Proof.
  split; [|split; vm_compute; reflexivity].
  intros soup. unfold check_list_structure.
  rewrite seq_outcome_Ok, list_children_for_Ok, list_parent_for_Ok.
  split; [|split].
  - reflexivity.
  - intros Ha. rewrite <- list_children_for_Ok in Ha.
    destruct (outcome_not_Ok _ Ha) as [e H]. rewrite H.
    simpl. clear Ha.
    apply for_each_Err_in in H as ([[parent nm] cs] & _ & H).
    destruct (is_list_name nm); [|discriminate].
    apply for_each_Err_in in H as ([cn ccs|s] & _ & H); [|discriminate].
    destruct (String.eqb cn "li"); [discriminate|]. injection H as <-. eauto.
  - intros Ha Hb. rewrite <- list_children_for_Ok in Ha. rewrite Ha. simpl.
    rewrite <- list_parent_for_Ok in Hb.
    destruct (outcome_not_Ok _ Hb) as [e H]. rewrite H.
    apply for_each_Err_in in H as ([[parent nm] cs] & _ & H).
    destruct (String.eqb nm "li"); [|discriminate].
    destruct (is_list_name parent); [discriminate|]. injection H as <-. eauto.
Qed.

(** ** C7 *)

Lemma lstrip_nil_iff s : lstrip s = [] <-> forallb is_space s = true.
Proof.
  induction s as [|c s IH]; simpl; [tauto|].
  destruct (is_space c); simpl; [exact IH|]. split; discriminate.
Qed.

Lemma lstrip_head s c r : lstrip s = c :: r -> is_space c = false.
Proof.
  induction s as [|d s IH]; simpl; [discriminate|].
  destruct (is_space d) eqn:E; [exact IH|]. intros [= <- _]. exact E.
Qed.

Lemma forallb_rev {A} (f : A -> bool) l : forallb f (rev l) = forallb f l.
Proof.
  apply eq_true_iff_eq. rewrite !forallb_forall.
  split; intros H x Hx; apply H; [apply in_rev in Hx | apply in_rev]; exact Hx.
Qed.

(** [s.strip()] is empty exactly when [s] is all whitespace. *)
Lemma strip_nil_iff s : strip s = [] <-> forallb is_space s = true.
Proof.
  unfold strip. split.
  - intros H. apply (f_equal (@rev ascii)) in H. rewrite rev_involutive in H.
    apply lstrip_nil_iff in H. rewrite forallb_rev in H.
    destruct (lstrip s) as [|c r] eqn:E.
    + apply lstrip_nil_iff. exact E.
    + apply lstrip_head in E. simpl in H. rewrite E in H. discriminate.
  - intros H. apply lstrip_nil_iff in H. rewrite H. reflexivity.
Qed.

Lemma concat_strip_nil l :
  concat (map strip l) = [] <-> forallb is_space (concat l) = true.
Proof.
  induction l as [|x l IH]; simpl; [tauto|].
  rewrite forallb_app, andb_true_iff, <- IH, <- strip_nil_iff.
  split; [intros H; apply app_eq_nil in H; exact H | intros [-> ->]; reflexivity].
Qed.

(** [get_text(strip=True)] is empty exactly when the stripped concatenation
    of the text is. *)
Lemma get_text_strip_nil_iff n :
  get_text_strip n = [] <-> strip (concat (texts n)) = [].
Proof. unfold get_text_strip. rewrite concat_strip_nil, strip_nil_iff. reflexivity. Qed.

Lemma paragraphs_err soup e : check_paragraphs soup = Err e -> e = EmptyParagraph.
Proof.
  intros H. apply for_each_Err_in in H as ([[parent nm] cs] & _ & H).
  destruct (String.eqb nm "p"); [destruct (get_text_strip _)|]; congruence.
Qed.

(** C7: the paragraph check fails with [EmptyParagraph] exactly when some
    [p] has an empty whitespace-stripped concatenation of its descendant
    text, and raises nothing else; html5lib's trees of "<p></p>" and
    "<p>   </p>" fail and that of "<p>x</p>" passes. *)
Theorem paragraphs_empty_iff :
  (forall soup,
     (check_paragraphs soup = Err EmptyParagraph <->
      exists parent cs, In (parent, "p"%string, cs) (soup_elems soup)
        /\ strip (concat (texts (Tag "p" cs))) = [])
     /\ (check_paragraphs soup = Ok \/ check_paragraphs soup = Err EmptyParagraph))
  /\ check_paragraphs soup_p_empty = Err EmptyParagraph
  /\ check_paragraphs soup_p_spaces = Err EmptyParagraph
  /\ check_paragraphs soup_p_x = Ok.
Proof.
  split; [|vm_compute; repeat split].
  intros soup. split.
  - split.
    + intros H. apply for_each_Err_in in H as ([[parent nm] cs] & Hin & H).
      destruct (String.eqb nm "p") eqn:E; [|discriminate].
      apply String.eqb_eq in E. subst nm.
      destruct (get_text_strip (Tag "p" cs)) eqn:G; [|discriminate].
      exists parent, cs. split; [exact Hin|]. apply get_text_strip_nil_iff. exact G.
    + intros (parent & cs & Hin & Hs).
      destruct (check_paragraphs soup) as [|e] eqn:H.
      * unfold check_paragraphs in H. apply for_each_Ok in H.
        rewrite Forall_forall in H. specialize (H _ Hin). simpl in H.
        apply get_text_strip_nil_iff in Hs. rewrite Hs in H. discriminate.
      * apply paragraphs_err in H. subst. reflexivity.
  - destruct (check_paragraphs soup) as [|e] eqn:H; [left; reflexivity|].
    right. apply paragraphs_err in H. subst. reflexivity.
Qed.

(** ** [str.find] *)

Lemma is_prefix_nil_r sub : sub <> [] -> is_prefix sub [] = false.
Proof. destruct sub; [contradiction|reflexivity]. Qed.

Lemma find_from_some s sub k :
  find_from s sub = Some k ->
  is_prefix sub (skipn k s) = true
  /\ forall j, j < k -> is_prefix sub (skipn j s) = false.
Proof.
  revert k. induction s as [|c s IH]; intros k; simpl.
  - destruct (is_prefix sub []) eqn:E; [|discriminate].
    intros [= <-]. split; [exact E | intros; lia].
  - destruct (is_prefix sub (c :: s)) eqn:E.
    + intros [= <-]. split; [exact E | intros; lia].
    + destruct (find_from s sub) as [k'|] eqn:F; simpl; [|discriminate].
      intros [= <-]. destruct (IH k' eq_refl) as [H1 H2].
      split; [exact H1|]. intros [|j] Hj; [exact E|]. apply H2. lia.
Qed.

Lemma find_from_none s sub :
  find_from s sub = None -> forall j, is_prefix sub (skipn j s) = false.
Proof.
  induction s as [|c s IH]; simpl.
  - destruct (is_prefix sub []) eqn:E; [discriminate|]. intros _ [|j]; exact E.
  - destruct (is_prefix sub (c :: s)) eqn:E; [discriminate|].
    destruct (find_from s sub); simpl; [discriminate|].
    intros _ [|j]; [exact E | apply IH; reflexivity].
Qed.

Lemma find_some html sub start q :
  find html sub start = Some q ->
  start <= q /\ is_prefix sub (skipn q html) = true
  /\ forall k, start <= k < q -> is_prefix sub (skipn k html) = false.
Proof.
  unfold find. destruct (start <=? length html); [|discriminate].
  destruct (find_from (skipn start html) sub) as [k|] eqn:F; simpl; [|discriminate].
  intros [= <-]. apply find_from_some in F as [H1 H2].
  rewrite skipn_skipn in H1. split; [lia|]. split; [rewrite Nat.add_comm; exact H1|].
  intros j Hj. specialize (H2 (j - start) ltac:(lia)).
  rewrite skipn_skipn in H2. replace (j - start + start) with j in H2 by lia. exact H2.
Qed.

Lemma find_none html sub start :
  find html sub start = None ->
  forall k, start <= k -> k <= length html -> is_prefix sub (skipn k html) = false.
Proof.
  unfold find. destruct (start <=? length html) eqn:L; [|intros _ k Hk Hk'; apply Nat.leb_gt in L; lia].
  destruct (find_from (skipn start html) sub) eqn:F; simpl; [discriminate|].
  intros _ k Hk _. pose proof (find_from_none _ _ F (k - start)) as H.
  rewrite skipn_skipn in H. replace (k - start + start) with k in H by lia. exact H.
Qed.

Lemma skipn_char_at html k :
  k < length html -> skipn k html = char_at html k :: skipn (S k) html.
Proof.
  unfold char_at. revert k. induction html as [|c html IH]; intros k Hk; simpl in *; [lia|].
  destruct k as [|k]; [reflexivity|]. apply IH. lia.
Qed.

Lemma is_prefix_char html c k :
  is_prefix [c] (skipn k html) = true <-> k < length html /\ char_at html k = c.
Proof.
  destruct (Nat.lt_ge_cases k (length html)) as [Hk|Hk].
  - rewrite (skipn_char_at _ _ Hk). simpl. rewrite andb_true_r.
    split; [intros E; apply Ascii.eqb_eq in E; auto
           | intros [_ E]; apply Ascii.eqb_eq; auto].
  - rewrite skipn_all2 by exact Hk. simpl. split; [discriminate | lia].
Qed.

Lemma find_char_some html c start q :
  find html [c] start = Some q ->
  start <= q < length html /\ char_at html q = c
  /\ forall k, start <= k < q -> char_at html k <> c.
Proof.
  intros F. apply find_some in F as (H1 & H2 & H3).
  apply is_prefix_char in H2 as [H2 H4]. split; [lia|]. split; [exact H4|].
  intros k Hk E. specialize (H3 k Hk).
  assert (is_prefix [c] (skipn k html) = true) by (apply is_prefix_char; split; [lia|exact E]).
  congruence.
Qed.

Lemma find_char_none html c start :
  find html [c] start = None -> forall k, start <= k < length html -> char_at html k <> c.
Proof.
  intros F k Hk E. pose proof (find_none _ _ _ F k ltac:(lia) ltac:(lia)) as H.
  assert (is_prefix [c] (skipn k html) = true) by (apply is_prefix_char; split; [lia|exact E]).
  congruence.
Qed.

(** [html.find(";", p + 1)] is the next ';' after [p]. *)
Lemma find_semicolon_next html p semi :
  find html (lit ";") (S p) = Some semi <-> next_char html ";"%char p semi.
Proof.
  unfold next_char. split.
  - intros F. apply find_char_some in F as (H1 & H2 & H3).
    split; [lia|]. split; [exact H2|]. intros k Hk. apply H3. lia.
  - intros (H1 & H2 & H3). destruct (find html (lit ";") (S p)) as [q|] eqn:F.
    + apply find_char_some in F as (G1 & G2 & G3). f_equal.
      destruct (Nat.lt_trichotomy q semi) as [Hl|[Hl|Hl]]; [|exact Hl|].
      * exfalso. apply (H3 q); [lia | exact G2].
      * exfalso. apply (G3 semi); [lia | exact H2].
    + exfalso. apply (find_char_none _ _ _ F semi); [lia | exact H2].
Qed.

Lemma find_semicolon_none html p :
  find html (lit ";") (S p) = None <->
  forall k, p < k < length html -> char_at html k <> ";"%char.
Proof.
  split.
  - intros F k Hk. apply (find_char_none _ _ _ F). lia.
  - intros H. destruct (find html (lit ";") (S p)) as [q|] eqn:F; [|reflexivity].
    apply find_char_some in F as (G1 & G2 & _). exfalso. apply (H q); [lia | exact G2].
Qed.

(** ** The ampersand scan *)

Lemma str_eqb_eq a b : str_eqb a b = true <-> a = b.
Proof. unfold str_eqb. destruct (list_eq_dec ascii_dec a b); split; congruence. Qed.

Lemma str_in_iff s l : str_in s l = true <-> In s l.
Proof.
  unfold str_in. rewrite existsb_exists. split.
  - intros (x & Hx & E). apply str_eqb_eq in E. subst. exact Hx.
  - intros H. exists s. split; [exact H | apply str_eqb_eq; reflexivity].
Qed.

(** The code's test on the entity text is the spec's list of names. *)
Lemma valid_entity_iff e : valid_entity e = true <-> recognized_entity e.
Proof.
  unfold valid_entity, recognized_entity. rewrite orb_true_iff, str_in_iff.
  assert (Hd : is_prefix (lit "#") e && isdigit (skipn 1 e) = true <->
               exists ds, e = "#"%char :: ds /\ ds <> []
                          /\ Forall (fun c => is_ascii_digit c = true) ds).
  { change (lit "#") with ["#"%char].
    destruct e as [|c ds]; cbn [is_prefix skipn];
      [split; [discriminate | intros (ds & H & _); discriminate]|].
    rewrite andb_true_r. split.
    - intros H. apply andb_true_iff in H as [H1 H2]. apply Ascii.eqb_eq in H1. subst c.
      exists ds. split; [reflexivity|]. destruct ds as [|d ds]; [discriminate|].
      split; [discriminate|]. apply Forall_forall, forallb_forall. exact H2.
    - intros (ds' & [= <- <-] & Hne & Hall). apply andb_true_iff. split; [apply Ascii.eqb_refl|].
      destruct ds as [|d ds]; [contradiction|]. unfold isdigit.
      apply forallb_forall, Forall_forall. exact Hall. }
  rewrite Hd. tauto.
Qed.

Lemma recognized_entity_no_amp e : recognized_entity e -> ~ In "&"%char e.
Proof.
  intros [H | (ds & -> & _ & Hall)].
  - simpl in H. intros Hin.
    repeat (destruct H as [<- | H]; [simpl in Hin; intuition discriminate|]).
    contradiction.
  - intros [Hc | Hin]; [discriminate|].
    rewrite Forall_forall in Hall. specialize (Hall _ Hin). discriminate.
Qed.

Lemma in_slice html a b k :
  a <= k < b -> k < length html -> In (char_at html k) (slice html a b).
Proof.
  intros Hk Hl. unfold slice, char_at.
  assert (E : nth (k - a) (firstn (b - a) (skipn a html)) " "%char = nth k html " "%char).
  { rewrite nth_firstn. replace (k - a <? b - a) with true by (symmetry; apply Nat.ltb_lt; lia).
    rewrite nth_skipn. f_equal. lia. }
  rewrite <- E. apply nth_In. rewrite length_firstn, length_skipn. lia.
Qed.

(** Between an '&' and the ';' of a recognised entity there is no '&'. *)
Lemma no_amp_inside_entity html pos semi :
  next_char html ";"%char pos semi -> recognized_entity (slice html (S pos) semi) ->
  forall p, pos < p <= semi -> char_at html p <> "&"%char.
Proof.
  intros (H1 & H2 & H3) Hr p Hp Hc.
  destruct (Nat.eq_dec p semi) as [->|Hne]; [congruence|].
  apply (recognized_entity_no_amp _ Hr). rewrite <- Hc. apply in_slice; lia.
Qed.

Lemma check_entity_ok_iff html p :
  entity_ok_at html p <-> exists semi, check_entity_with_ampersand html p = inr semi.
Proof.
  unfold entity_ok_at, check_entity_with_ampersand. split.
  - intros (semi & Hn & Hr). apply find_semicolon_next in Hn. rewrite Hn.
    apply valid_entity_iff in Hr. rewrite Hr. eauto.
  - intros (semi & H). destruct (find html (lit ";") (S p)) as [q|] eqn:F; [|discriminate].
    destruct (valid_entity _) eqn:V; [|discriminate]. injection H as ->.
    exists semi. split; [apply find_semicolon_next; exact F | apply valid_entity_iff; exact V].
Qed.

Lemma entity_ok_at_dec html p : {entity_ok_at html p} + {~ entity_ok_at html p}.
Proof.
  destruct (check_entity_with_ampersand html p) as [e|semi] eqn:C.
  - right. rewrite check_entity_ok_iff. intros (semi & H). congruence.
  - left. apply check_entity_ok_iff. eauto.
Defined.

Lemma amp_loop_ok_iff html : forall fuel pos, length html - pos < fuel ->
  (amp_loop fuel html pos = Ok <->
   forall p, pos <= p < length html -> char_at html p = "&"%char -> entity_ok_at html p).
Proof.
  induction fuel as [|fuel IH]; intros pos Hf; [lia|]. simpl.
  destruct (pos <? length html) eqn:L.
  2: { apply Nat.ltb_ge in L. split; [intros _ p Hp; lia | reflexivity]. }
  apply Nat.ltb_lt in L.
  destruct (Ascii.eqb (char_at html pos) "&") eqn:A.
  - apply Ascii.eqb_eq in A.
    destruct (check_entity_with_ampersand html pos) as [e|semi] eqn:C.
    + split; [discriminate|]. intros H.
      destruct (proj1 (check_entity_ok_iff html pos) (H pos ltac:(lia) A)) as [semi Hs].
      congruence.
    + assert (Hok : entity_ok_at html pos) by (apply check_entity_ok_iff; eauto).
      destruct Hok as (semi' & Hn & Hr).
      assert (semi' = semi).
      { apply find_semicolon_next in Hn. unfold check_entity_with_ampersand in C.
        rewrite Hn in C. destruct (valid_entity _); congruence. }
      subst semi'. pose proof Hn as (Hs & _).
      rewrite IH by lia. split.
      * intros H p Hp Hc.
        destruct (Nat.eq_dec p pos) as [->|Hne]; [exists semi; auto|].
        destruct (Nat.le_gt_cases p semi) as [Hle|Hgt].
        -- exfalso. apply (no_amp_inside_entity _ _ _ Hn Hr p); [lia | exact Hc].
        -- apply H; [lia | exact Hc].
      * intros H p Hp Hc. apply H; [lia | exact Hc].
  - rewrite IH by lia. split.
    + intros H p Hp Hc. destruct (Nat.eq_dec p pos) as [->|Hne].
      * rewrite Hc in A. discriminate.
      * apply H; [lia | exact Hc].
    + intros H p Hp Hc. apply H; [lia | exact Hc].
Qed.

Lemma amp_loop_first_bad html : forall fuel pos p, length html - pos < fuel ->
  pos <= p < length html -> char_at html p = "&"%char -> ~ entity_ok_at html p ->
  (forall q, pos <= q < p -> char_at html q = "&"%char -> entity_ok_at html q) ->
  exists e, check_entity_with_ampersand html p = inl e /\ amp_loop fuel html pos = Err e.
Proof.
  induction fuel as [|fuel IH]; intros pos p Hf Hp Hc Hbad Hbefore; [lia|]. simpl.
  replace (pos <? length html) with true by (symmetry; apply Nat.ltb_lt; lia).
  destruct (Nat.eq_dec pos p) as [<-|Hne].
  - rewrite Hc. simpl.
    destruct (check_entity_with_ampersand html pos) as [e|semi] eqn:C; [eauto|].
    exfalso. apply Hbad. apply check_entity_ok_iff. eauto.
  - destruct (Ascii.eqb (char_at html pos) "&") eqn:A.
    + apply Ascii.eqb_eq in A.
      pose proof (Hbefore pos ltac:(lia) A) as Hok.
      pose proof Hok as (semi & Hn & Hr).
      destruct (proj1 (check_entity_ok_iff html pos) Hok) as [semi' C]. rewrite C.
      assert (semi' = semi).
      { apply find_semicolon_next in Hn. unfold check_entity_with_ampersand in C.
        rewrite Hn in C. destruct (valid_entity _); congruence. }
      subst semi'. pose proof Hn as (Hs & _).
      assert (semi < p).
      { destruct (Nat.le_gt_cases p semi) as [Hle|Hgt]; [|exact Hgt].
        exfalso. apply (no_amp_inside_entity _ _ _ Hn Hr p); [lia | exact Hc]. }
      apply IH; [lia | lia | exact Hc | exact Hbad |].
      intros q Hq. apply Hbefore. lia.
    + apply IH; [lia | lia | exact Hc | exact Hbad |].
      intros q Hq. apply Hbefore. lia.
Qed.

Lemma first_true (f : nat -> bool) n : forall p, p <= n -> f p = true ->
  exists q, q <= p /\ f q = true /\ forall r, r < q -> f r = false.
Proof.
  induction n as [|n IH]; intros p Hp Hf.
  - exists p. split; [lia|]. split; [exact Hf | intros; lia].
  - destruct (Nat.le_gt_cases p n) as [Hle|Hgt]; [apply (IH p Hle Hf)|].
    destruct (existsb f (seq 0 (S n))) eqn:E.
    + apply existsb_exists in E as (r & Hr & Hfr). apply in_seq in Hr.
      destruct (IH r ltac:(lia) Hfr) as (q & Hq & Hfq & Hmin).
      exists q. split; [lia|]. auto.
    + exists p. split; [lia|]. split; [exact Hf|].
      intros r Hr. destruct (f r) eqn:Fr; [|reflexivity].
      assert (existsb f (seq 0 (S n)) = true); [|congruence].
      apply existsb_exists. exists r. split; [apply in_seq; lia | exact Fr].
Qed.

(** An '&' not beginning a recognised entity makes the scan fail, with the
    error of the first such '&'. *)
Lemma amp_first_error html p :
  p < length html -> char_at html p = "&"%char -> ~ entity_ok_at html p ->
  exists q e, q <= p /\ char_at html q = "&"%char /\ ~ entity_ok_at html q
    /\ (forall r, r < q -> char_at html r = "&"%char -> entity_ok_at html r)
    /\ check_entity_with_ampersand html q = inl e
    /\ check_for_unescaped_ampersand html = Err e.
Proof.
  intros Hp Hc Hbad.
  set (f := fun q => (q <? length html) && Ascii.eqb (char_at html q) "&"
                     && match check_entity_with_ampersand html q with
                        | inl _ => true | inr _ => false end).
  assert (Hf : forall q, f q = true <->
                 q < length html /\ char_at html q = "&"%char /\ ~ entity_ok_at html q).
  { intros q. unfold f. rewrite !andb_true_iff, Nat.ltb_lt, Ascii.eqb_eq, check_entity_ok_iff.
    destruct (check_entity_with_ampersand html q) eqn:C.
    - split; [intros [[H1 H2] _]; repeat split; auto; intros (s & [=])
             | intros (H1 & H2 & _); auto].
    - split; [intros [_ [=]] | intros (_ & _ & H); exfalso; eauto]. }
  destruct (first_true f p p (le_n p) (proj2 (Hf p) (conj Hp (conj Hc Hbad))))
    as (q & Hq & Hfq & Hmin).
  apply Hf in Hfq as (Hql & Hqc & Hqbad).
  assert (Hbefore : forall r, r < q -> char_at html r = "&"%char -> entity_ok_at html r).
  { intros r Hr Hrc. specialize (Hmin r Hr).
    destruct (entity_ok_at_dec html r) as [Hok|Hnok]; [exact Hok|].
    exfalso. assert (f r = true) by (apply Hf; repeat split; auto; lia). congruence. }
  destruct (amp_loop_first_bad html (S (length html)) 0 q ltac:(lia) ltac:(lia) Hqc Hqbad)
    as (e & He & Hloop); [intros r Hr; apply Hbefore; lia|].
  exists q, e. repeat split; auto.
Qed.

Lemma next_char_unique html c p q1 q2 :
  next_char html c p q1 -> next_char html c p q2 -> q1 = q2.
Proof.
  intros (A1 & B1 & C1) (A2 & B2 & C2).
  destruct (Nat.lt_trichotomy q1 q2) as [H|[H|H]]; [|exact H|].
  - exfalso. apply (C2 q1); [lia | exact B1].
  - exfalso. apply (C1 q2); [lia | exact B2].
Qed.

(** ** C4 *)

(** C4: Python's [str.isdigit] is true of '²' (SUPERSCRIPT TWO, code point
    178), which is not a decimal digit.  So [_check_entity_with_ampersand]
    accepts "&#²;", returning its ';', and the ampersand scan passes on
    "<p>&#²;</p>", although the text after '#' is not decimal digits. *)
Theorem ampersand_scan_unicode_digit (is_digit_char : nat -> bool)
  (H178 : is_digit_char 178 = true) :
  UnicodeEntity.slice UnicodeEntity.superscript_entity_input 4 6 = [35; 178]
  /\ UnicodeEntity.check_entity_with_ampersand is_digit_char
       UnicodeEntity.superscript_entity_input 3 = inr 6
  /\ UnicodeEntity.check_for_unescaped_ampersand is_digit_char
       UnicodeEntity.superscript_entity_input = UnicodeEntity.Ok.
Proof.
  split; [vm_compute; reflexivity|].
  vm_compute. rewrite H178. split; reflexivity.
Qed.

Lemma ampersand_scan_unicode_digit_witness :
  UnicodeEntity.py_isdigit_latin1 178 = true
  /\ UnicodeEntity.slice UnicodeEntity.superscript_entity_input 4 6 = [35; 178]
  /\ UnicodeEntity.check_entity_with_ampersand UnicodeEntity.py_isdigit_latin1
       UnicodeEntity.superscript_entity_input 3 = inr 6
  /\ UnicodeEntity.check_for_unescaped_ampersand UnicodeEntity.py_isdigit_latin1
       UnicodeEntity.superscript_entity_input = UnicodeEntity.Ok.
Proof.
  split; [reflexivity|].
  apply (ampersand_scan_unicode_digit UnicodeEntity.py_isdigit_latin1). reflexivity.
Defined.

(** ** C5 *)

(** C5 (counterexample): in "&foo;&" the last '&' has no ';' after it, yet
    the scan fails with [InvalidEntity] for the first '&'; in "a&b&c" the
    snippet of the [UnescapedAmpersand] error starts at the first '&', not
    at the second. *)
Lemma ampersand_without_semicolon_counterexample :
  check_for_unescaped_ampersand (lit "&foo;&")
    = Err (InvalidEntity (lit "foo") (lit "&foo;&"))
  /\ check_for_unescaped_ampersand (lit "a&b&c")
    = Err (UnescapedAmpersand (lit "&b&c")).
Proof. vm_compute. split; reflexivity. Qed.

(** C5 (amended): an '&' at [p] with no ';' anywhere after it makes the
    ampersand scan fail.  Its error is that of the first '&' whose entity
    check fails: the '&' at [q <= p] where [_check_entity_with_ampersand]
    raises, every '&' before [q] passing that check.  When every '&' before
    [p] passes it, whatever ';' come before [p], [q] is [p] and the error is
    [UnescapedAmpersand] with the 50-character snippet from [p].
    [validate_html] on "<p>AT&T</p>" reports [UnescapedAmpersand] "&T</p>". *)
Theorem ampersand_without_semicolon :
  (forall html p,
     p < length html -> char_at html p = "&"%char ->
     (forall k, p < k < length html -> char_at html k <> ";"%char) ->
     exists q e, q <= p /\ char_at html q = "&"%char
       /\ check_entity_with_ampersand html q = inl e
       /\ (forall r, r < q -> char_at html r = "&"%char ->
             exists semi, check_entity_with_ampersand html r = inr semi)
       /\ check_for_unescaped_ampersand html = Err e
       /\ ((forall r, r < p -> char_at html r = "&"%char ->
              exists semi, check_entity_with_ampersand html r = inr semi) ->
           q = p /\ e = UnescapedAmpersand (slice html p (p + 50))))
  /\ (forall parse cfg,
        validate_html parse cfg (lit "<p>AT&T</p>")
        = Err (UnescapedAmpersand (lit "&T</p>"))).
Proof.
  split; [|intros parse cfg; vm_compute; reflexivity].
  intros html p Hp Hc Hnone.
  assert (Hbad : ~ entity_ok_at html p).
  { intros (semi & (Hs & Hsc & _) & _). apply (Hnone semi); [lia | exact Hsc]. }
  destruct (amp_first_error html p Hp Hc Hbad)
    as (q & e & Hq & Hqc & Hqbad & Hbefore & He & Hscan).
  exists q, e. split; [exact Hq|]. split; [exact Hqc|]. split; [exact He|].
  split; [intros r Hr Hrc; apply check_entity_ok_iff; auto|].
  split; [exact Hscan|].
  intros Hall. assert (q = p).
  { destruct (Nat.eq_dec q p) as [E|Hne]; [exact E|].
    exfalso. apply Hqbad. apply check_entity_ok_iff. apply Hall; [lia | exact Hqc]. }
  subst q. split; [reflexivity|].
  unfold check_entity_with_ampersand in He.
  rewrite (proj2 (find_semicolon_none html p) Hnone) in He. congruence.
Qed.

(** ** The unclosed-tag scan: fuel and reachability *)

Lemma prefix_nonempty_lt html sub q :
  sub <> [] -> is_prefix sub (skipn q html) = true -> q < length html.
Proof.
  intros Hs H. destruct (Nat.lt_ge_cases q (length html)) as [Hl|Hge]; [exact Hl|].
  rewrite skipn_all2 in H by exact Hge. rewrite is_prefix_nil_r in H by exact Hs.
  discriminate.
Qed.

Lemma unclosed_step_next html p q :
  unclosed_step html p = Next q -> p < q <= length html.
Proof.
  unfold unclosed_step. destruct (p <? length html) eqn:L; [|discriminate].
  apply Nat.ltb_lt in L.
  destruct (negb _); [intros [= <-]; lia|].
  destruct (find_tag_end html p) as [[tag_name tag_end] is_closing].
  destruct tag_name as [|c name]; [intros [= <-]; lia|].
  assert (Hc : forall c', find html (lit ">") p = Some c' -> p < S c' <= length html).
  { intros c' F. apply find_char_some in F. lia. }
  destruct (is_special_tag _);
    (destruct (find html (lit ">") p) as [c'|] eqn:F; [|discriminate]);
    [intros [= <-]; apply Hc; reflexivity|].
  destruct (negb is_closing && negb _);
    [destruct (check_nested_tags _ _ _); [|discriminate]|];
    intros [= <-]; apply Hc; reflexivity.
Qed.

Lemma unclosed_loop_fuel html : forall f1 f2 p,
  length html - p < f1 -> length html - p < f2 ->
  unclosed_loop f1 html p = unclosed_loop f2 html p.
Proof.
  induction f1 as [|f1 IH]; intros [|f2] p H1 H2; [lia|lia|lia|]. simpl.
  destruct (unclosed_step html p) as [| |q] eqn:E; [reflexivity|reflexivity|].
  apply unclosed_step_next in E. apply IH; lia.
Qed.

(** A position the scan reaches decides the rest of it. *)
Lemma reaches_loop html p :
  Reaches html p -> check_for_unclosed_tags html = unclosed_loop (S (length html)) html p.
Proof.
  induction 1 as [|p q Hr IH Hs]; [reflexivity|].
  rewrite IH. pose proof (unclosed_step_next _ _ _ Hs).
  transitivity (unclosed_loop (length html) html q).
  - simpl. rewrite Hs. reflexivity.
  - apply unclosed_loop_fuel; lia.
Qed.

(** ** Tag names *)

Lemma name_run_chars s : Forall (fun c => is_name_char c = true) (firstn (name_run s) s).
Proof.
  induction s as [|c s IH]; simpl; [constructor|].
  destruct (is_name_char c) eqn:E; simpl; [constructor; auto | constructor].
Qed.

Lemma lower_char_not_slash c : is_name_char c = true -> lower_char c <> "/"%char.
Proof.
  unfold lower_char. destruct (is_ascii_upper c) eqn:U.
  - unfold is_ascii_upper in U. cbv zeta in U. apply andb_true_iff in U as [U1 U2].
    apply Nat.leb_le in U1, U2. intros _ E.
    apply (f_equal nat_of_ascii) in E. rewrite nat_ascii_embedding in E by lia.
    change (nat_of_ascii "/"%char) with 47 in E. lia.
  - intros H ->. discriminate.
Qed.

(** A tag name read by [_find_tag_end] has no '/' in it. *)
Lemma find_tag_end_no_slash html pos name tag_end closing :
  find_tag_end html pos = (name, tag_end, closing) -> Forall (fun c => c <> "/"%char) name.
Proof.
  unfold find_tag_end.
  destruct ((pos <? length html) && _); [|intros [= <- _ _]; constructor].
  match goal with |- context [lower (slice html ?a ?b)] =>
    set (ts := a) end.
  intros [= <- _ _]. unfold slice, lower.
  replace (ts + name_run (skipn ts html) - ts) with (name_run (skipn ts html)) by lia.
  pose proof (name_run_chars (skipn ts html)) as H.
  apply Forall_map. eapply Forall_impl; [|exact H].
  intros c Hc. apply lower_char_not_slash. exact Hc.
Qed.

Lemma name_ok_of_find_tag_end html pos name tag_end closing :
  find_tag_end html pos = (name, tag_end, closing) -> name <> [] -> name_ok name.
Proof.
  intros F Hne. apply find_tag_end_no_slash in F.
  destruct name as [|c name]; [contradiction|]. inversion F. assumption.
Qed.

(** ** The nesting loop refines the balanced search *)

Section Nesting.
Variable html name : str.
Hypothesis Hname : name_ok name.

Let open_tag := lit "<" ++ name.
Let close_tag := lit "</" ++ name.

Lemma open_close_exclusive s :
  is_prefix open_tag s = true -> is_prefix close_tag s = false.
Proof.
  unfold open_tag, close_tag. destruct name as [|c rest]; [contradiction|].
  change (lit "<" ++ c :: rest) with ("<"%char :: c :: rest).
  change (lit "</" ++ c :: rest) with ("<"%char :: "/"%char :: c :: rest).
  destruct s as [|a [|b s]]; cbn [is_prefix].
  - discriminate.
  - rewrite andb_false_r. discriminate.
  - intros H. apply andb_true_iff in H as [_ H]. apply andb_true_iff in H as [H _].
    apply Ascii.eqb_eq in H. subst b.
    destruct (Ascii.eqb "/" c) eqn:E.
    + apply Ascii.eqb_eq in E. subst c. contradiction.
    + rewrite andb_false_l, andb_false_r. reflexivity.
Qed.

Lemma events_skip : forall k s,
  (forall j, j < k -> is_prefix open_tag (skipn j s) = false
                      /\ is_prefix close_tag (skipn j s) = false) ->
  events name s = events name (skipn k s).
Proof.
  induction k as [|k IH]; intros s H; [reflexivity|].
  destruct s as [|c s]; [reflexivity|].
  destruct (H 0 ltac:(lia)) as [H1 H2]. cbn [skipn] in H1, H2. cbn [events].
  fold open_tag close_tag. rewrite H1, H2. cbn [app].
  apply IH. intros j Hj. apply (H (S j)). lia.
Qed.

Lemma events_open s :
  is_prefix open_tag s = true -> exists c s', s = c :: s' /\ events name s = true :: events name s'.
Proof.
  destruct s as [|c s']; [intros H; discriminate|].
  intros H. exists c, s'. split; [reflexivity|]. cbn [events].
  fold open_tag. rewrite H. reflexivity.
Qed.

Lemma events_close s :
  is_prefix open_tag s = false -> is_prefix close_tag s = true ->
  exists c s', s = c :: s' /\ events name s = false :: events name s'.
Proof.
  destruct s as [|c s']; [intros _ H; discriminate|].
  intros H1 H2. exists c, s'. split; [reflexivity|]. cbn [events].
  fold open_tag close_tag. rewrite H1, H2. reflexivity.
Qed.

Lemma skipn_S_tl k (l : str) c l' : skipn k l = c :: l' -> skipn (S k) l = l'.
Proof.
  revert l. induction k as [|k IH]; intros [|a l] H; simpl in *; try discriminate.
  - injection H as _ ->. reflexivity.
  - apply IH. exact H.
Qed.

(** The events from [pos] on, when the first one is at [q]. *)
Lemma events_from pos q :
  pos <= q ->
  (forall j, pos <= j < q -> is_prefix open_tag (skipn j html) = false
                             /\ is_prefix close_tag (skipn j html) = false) ->
  events name (skipn pos html) = events name (skipn q html).
Proof.
  intros Hq H. rewrite (events_skip (q - pos)).
  - rewrite skipn_skipn. f_equal. f_equal. lia.
  - intros j Hj. rewrite skipn_skipn. apply H. lia.
Qed.

Lemma nest_loop_zero fuel pos : nest_loop fuel html name 0 pos = 0.
Proof. destruct fuel; simpl; [reflexivity|]. rewrite andb_false_r. reflexivity. Qed.

Lemma open_tag_ne : open_tag <> []. Proof. discriminate. Qed.
Lemma close_tag_ne : close_tag <> []. Proof. discriminate. Qed.

Lemma nest_loop_closes : forall fuel level pos,
  length html - pos < fuel -> 0 < level ->
  (nest_loop fuel html name level pos = 0 <->
   closes level (events name (skipn pos html)) = true).
Proof.
  induction fuel as [|fuel IH]; intros level pos Hf Hl; [lia|]. cbn [nest_loop].
  replace (0 <? level) with true by (symmetry; apply Nat.ltb_lt; exact Hl).
  rewrite andb_true_r.
  destruct (pos <? length html) eqn:L.
  2: { apply Nat.ltb_ge in L. rewrite skipn_all2 by exact L. cbn [events closes].
       split; [lia|discriminate]. }
  apply Nat.ltb_lt in L. fold open_tag close_tag.
  destruct (find html open_tag pos) as [o|] eqn:Fo;
    destruct (find html close_tag pos) as [c|] eqn:Fc.
  - apply find_some in Fo as (Ho1 & Ho2 & Ho3).
    apply find_some in Fc as (Hc1 & Hc2 & Hc3).
    pose proof (prefix_nonempty_lt _ _ _ open_tag_ne Ho2).
    pose proof (prefix_nonempty_lt _ _ _ close_tag_ne Hc2).
    destruct (o <? c) eqn:OC.
    + apply Nat.ltb_lt in OC.
      rewrite (events_from pos o Ho1) by (intros j Hj; split; [apply Ho3 | apply Hc3]; lia).
      destruct (events_open _ Ho2) as (a & s' & Es & Ee). rewrite Ee. cbn [closes].
      rewrite <- (skipn_S_tl _ _ _ _ Es). apply IH; lia.
    + apply Nat.ltb_ge in OC.
      assert (c <> o) by (intros ->; rewrite open_close_exclusive in Hc2 by exact Ho2; discriminate).
      rewrite (events_from pos c Hc1) by (intros j Hj; split; [apply Ho3 | apply Hc3]; lia).
      destruct (events_close _ (Ho3 c ltac:(lia)) Hc2) as (a & s' & Es & Ee). rewrite Ee.
      rewrite <- (skipn_S_tl _ _ _ _ Es).
      destruct level as [|[|level]]; [lia| |].
      * cbn [closes Nat.sub]. rewrite nest_loop_zero. split; reflexivity.
      * cbn [closes Nat.sub]. try rewrite Nat.sub_0_r. apply IH; lia.
  - apply find_some in Fo as (Ho1 & Ho2 & Ho3).
    pose proof (prefix_nonempty_lt _ _ _ open_tag_ne Ho2).
    pose proof (find_none _ _ _ Fc) as Hc3.
    rewrite (events_from pos o Ho1) by (intros j Hj; split; [apply Ho3 | apply Hc3]; lia).
    destruct (events_open _ Ho2) as (a & s' & Es & Ee). rewrite Ee. cbn [closes].
    rewrite <- (skipn_S_tl _ _ _ _ Es). apply IH; lia.
  - pose proof (find_none _ _ _ Fo) as Ho3.
    apply find_some in Fc as (Hc1 & Hc2 & Hc3).
    pose proof (prefix_nonempty_lt _ _ _ close_tag_ne Hc2).
    rewrite (events_from pos c Hc1) by (intros j Hj; split; [apply Ho3 | apply Hc3]; lia).
    destruct (events_close _ (Ho3 c ltac:(lia) ltac:(lia)) Hc2) as (a & s' & Es & Ee).
    rewrite Ee. rewrite <- (skipn_S_tl _ _ _ _ Es).
    destruct level as [|[|level]]; [lia| |].
    * cbn [closes Nat.sub]. rewrite nest_loop_zero. split; reflexivity.
    * cbn [closes Nat.sub]. try rewrite Nat.sub_0_r. apply IH; lia.
  - pose proof (find_none _ _ _ Fo) as Ho3. pose proof (find_none _ _ _ Fc) as Hc3.
    rewrite (events_from pos (length html))
      by first [lia | intros j Hj; split; [apply Ho3 | apply Hc3]; lia].
    rewrite skipn_all. cbn [events closes]. split; [lia|discriminate].
Qed.
End Nesting.

Lemma is_prefix_app a b s : is_prefix (a ++ b) s = true -> is_prefix a s = true.
Proof.
  revert s. induction a as [|x a IH]; intros s H; [reflexivity|].
  destruct s as [|y s]; [discriminate|]. cbn [is_prefix app] in *.
  apply andb_true_iff in H as [H1 H2]. rewrite H1. simpl. apply IH. exact H2.
Qed.

(** Where ["</" ++ name ++ ">"] occurs, so does ["</" ++ name]. *)
Lemma find_close_tag_none html name start :
  find html (lit "</" ++ name) start = None ->
  find html (lit "</" ++ name ++ lit ">") start = None.
Proof.
  intros F. destruct (find html (lit "</" ++ name ++ lit ">") start) as [c|] eqn:G; [|reflexivity].
  apply find_some in G as (G1 & G2 & _).
  assert (Hlt : c < length html) by (eapply prefix_nonempty_lt; [|exact G2]; discriminate).
  rewrite app_assoc in G2. apply is_prefix_app in G2.
  rewrite (find_none _ _ _ F c G1 ltac:(lia)) in G2. discriminate.
Qed.

(** [_check_nested_tags] raises when the balanced search fails. *)
Lemma check_nested_unclosed html name start :
  name_ok name -> balanced_closes html name start = false ->
  check_nested_tags html name start = Err (UnclosedTag name start (window html start)).
Proof.
  intros Hname Hb. unfold check_nested_tags, balanced_closes in *.
  assert (Hfast : forall c,
            find html (lit "</" ++ name ++ lit ">") (S start) = Some c ->
            (forall j, S start <= j <= c -> is_prefix (lit "<" ++ name) (skipn j html) = false) ->
            False).
  { intros c G Hopen. apply find_some in G as (G1 & G2 & _).
    rewrite app_assoc in G2. apply is_prefix_app in G2.
    destruct (find html (lit "</" ++ name) (S start)) as [c'|] eqn:F.
    - apply find_some in F as (F1 & F2 & F3).
      assert (c' <= c).
      { destruct (Nat.le_gt_cases c' c) as [H|H]; [exact H|].
        rewrite (F3 c ltac:(lia)) in G2. discriminate. }
      rewrite (events_from html name (S start) c' F1) in Hb
        by (intros j Hj; split; [apply Hopen | apply F3]; lia).
      destruct (events_close name _ (Hopen c' ltac:(lia)) F2) as (a & s' & Es & Ee).
      rewrite Ee in Hb. discriminate.
    - assert (prefix_nonempty_lt_H := G2); eapply prefix_nonempty_lt in prefix_nonempty_lt_H; [|discriminate].
      rewrite (find_none _ _ _ F c G1 ltac:(lia)) in G2. discriminate. }
  destruct (find html (lit "<" ++ name) (S start)) as [o|] eqn:Fo;
    destruct (find html (lit "</" ++ name ++ lit ">") (S start)) as [c|] eqn:Fc.
  - apply find_some in Fo as (Ho1 & Ho2 & Ho3).
    destruct (c <? o) eqn:CO.
    + exfalso. apply Nat.ltb_lt in CO. apply (Hfast c eq_refl).
      intros j Hj. apply Ho3. lia.
    + assert (prefix_nonempty_lt_H := Ho2); eapply prefix_nonempty_lt in prefix_nonempty_lt_H; [|discriminate].
      destruct (nest_loop (length html) html name 1 (S start)) eqn:N; [|reflexivity].
      apply (nest_loop_closes html name Hname) in N; [congruence | lia | lia].
  - apply find_some in Fo as (Ho1 & Ho2 & Ho3).
    assert (prefix_nonempty_lt_H := Ho2); eapply prefix_nonempty_lt in prefix_nonempty_lt_H; [|discriminate].
    destruct (nest_loop (length html) html name 1 (S start)) eqn:N; [|reflexivity].
    apply (nest_loop_closes html name Hname) in N; [congruence | lia | lia].
  - exfalso. apply (Hfast c eq_refl). intros j Hj.
    apply (find_none _ _ _ Fo); [lia|].
    apply find_some in Fc as (_ & Fc & _).
    assert (prefix_nonempty_lt_H := Fc); eapply prefix_nonempty_lt in prefix_nonempty_lt_H; [|discriminate]. lia.
  - reflexivity.
Qed.

Lemma find_tag_end_nonempty html i name tag_end closing :
  find_tag_end html i = (name, tag_end, closing) -> name <> [] ->
  i < length html /\ char_at html i = "<"%char.
Proof.
  unfold find_tag_end.
  destruct ((i <? length html) && Ascii.eqb (char_at html i) "<") eqn:E.
  - intros _ _. apply andb_true_iff in E as [E1 E2].
    split; [apply Nat.ltb_lt; exact E1 | apply Ascii.eqb_eq; exact E2].
  - intros [= <- _ _] H. contradiction.
Qed.

(** When the scan reaches an opening tag of a non-self-closing element and
    [_check_nested_tags] raises there, the scan raises that error. *)
Lemma unclosed_scan_fails_at html i name tag_end e :
  Reaches html i -> find_tag_end html i = (name, tag_end, false) -> name <> [] ->
  is_special_tag name = false -> is_self_closing_tag name = false ->
  find html (lit ">") i <> None ->
  check_nested_tags html name i = Err e ->
  check_for_unclosed_tags html = Err e.
Proof.
  intros HR HF Hne Hsp Hsc Hgt Hn.
  destruct (find_tag_end_nonempty _ _ _ _ _ HF Hne) as [Hi Hc].
  rewrite (reaches_loop _ _ HR). cbn [unclosed_loop]. unfold unclosed_step.
  replace (i <? length html) with true by (symmetry; apply Nat.ltb_lt; exact Hi).
  rewrite Hc. cbn [negb Ascii.eqb]. rewrite HF.
  destruct name as [|c name']; [contradiction|]. rewrite Hsp.
  destruct (find html (lit ">") i) as [c'|]; [|contradiction].
  rewrite Hsc. cbn [negb andb]. rewrite Hn. reflexivity.
Qed.

(** C1: at an opening tag of an element that is neither special nor
    self-closing, reached by the scan and followed by some '>', if the
    balanced search over the later occurrences of ["<" ++ name] and
    ["</" ++ name] (depth starting at 1) never returns to depth 0, the scan
    fails with [UnclosedTag name i (window html i)], where the window is
    [html[max(0,i-20):i+20]].  On "<p>Unclosed <a href='#'>link</p>" the scan
    and [validate_html] report [a] at offset 12. *)
Theorem unclosed_tag_balanced_search :
  (forall html i name tag_end,
     Reaches html i -> find_tag_end html i = (name, tag_end, false) -> name <> [] ->
     is_special_tag name = false -> is_self_closing_tag name = false ->
     find html (lit ">") i <> None ->
     balanced_closes html name i = false ->
     check_for_unclosed_tags html = Err (UnclosedTag name i (window html i)))
  /\ check_for_unclosed_tags (lit "<p>Unclosed <a href='#'>link</p>")
     = Err (UnclosedTag (lit "a") 12 (lit "<p>Unclosed <a href='#'>link</p>"))
  /\ validate_html (fun _ => soup_unclosed_a) default_config
       (lit "<p>Unclosed <a href='#'>link</p>")
     = Err (UnclosedTag (lit "a") 12 (lit "<p>Unclosed <a href='#'>link</p>")).
Proof.
  split; [|split; vm_compute; reflexivity].
  intros html i name tag_end HR HF Hne Hsp Hsc Hgt Hb.
  apply (unclosed_scan_fails_at html i name tag_end); try assumption.
  apply check_nested_unclosed; [|exact Hb].
  exact (name_ok_of_find_tag_end _ _ _ _ _ HF Hne).
Qed.

Lemma unclosed_tag_balanced_search_witness :
  check_for_unclosed_tags (lit "<b>x") = Err (UnclosedTag (lit "b") 0 (window (lit "<b>x") 0)).
Proof.
  apply (proj1 unclosed_tag_balanced_search (lit "<b>x") 0 (lit "b") 2).
  - apply reaches_start.
  - vm_compute; reflexivity.
  - discriminate.
  - vm_compute; reflexivity.
  - vm_compute; reflexivity.
  - vm_compute; discriminate.
  - vm_compute; reflexivity.
Defined.

(** C10 (counterexample): "<p><B>x</B></b></p>" has an element whose opening
    and closing tags are written in upper case; html5lib drops the stray
    "</b>", and the search for "<b"/"</b>" finds the lowercase "</b>", so
    [validate_html] accepts the input.  Likewise "<P>x</P>&" fails with the
    ampersand error, which is raised before any closure check. *)
Lemma uppercase_tags_counterexample :
  check_for_unclosed_tags (lit "<p><B>x</B></b></p>") = Ok
  /\ validate_html (fun _ => soup_p_B) default_config (lit "<p><B>x</B></b></p>") = Ok
  /\ validate_html (fun _ => soup_p_x_amp) default_config (lit "<P>x</P>&")
     = Err (UnescapedAmpersand (lit "&")).
Proof. split; [|split]; vm_compute; reflexivity. Qed.

(** C10 (amended): [_find_tag_end] lowercases the tag name, but the closure
    search looks for the lowercased ["<" ++ name] and ["</" ++ name] in the
    raw string.  So when the scan reaches an opening tag of a non-special,
    non-self-closing element that is followed by some '>', and neither
    lowercased sequence occurs after it, the scan fails with [UnclosedTag];
    "<P>x</P>" yields the name "p" and fails this way, and so does
    [validate_html] on it with [p] allowed. *)
Theorem uppercase_tags_unclosed :
  (forall html i name tag_end,
     Reaches html i -> find_tag_end html i = (name, tag_end, false) -> name <> [] ->
     is_special_tag name = false -> is_self_closing_tag name = false ->
     find html (lit ">") i <> None ->
     find html (lit "<" ++ name) (S i) = None ->
     find html (lit "</" ++ name) (S i) = None ->
     check_for_unclosed_tags html = Err (UnclosedTag name i (window html i)))
  /\ find_tag_end (lit "<P>x</P>") 0 = (lit "p", 2, false)
  /\ check_for_unclosed_tags (lit "<P>x</P>")
     = Err (UnclosedTag (lit "p") 0 (lit "<P>x</P>"))
  /\ validate_html (fun _ => soup_p_x) default_config (lit "<P>x</P>")
     = Err (UnclosedTag (lit "p") 0 (lit "<P>x</P>")).
Proof.
  split; [|split; [|split]; vm_compute; reflexivity].
  intros html i name tag_end HR HF Hne Hsp Hsc Hgt Ho Hc.
  apply (unclosed_scan_fails_at html i name tag_end); try assumption.
  unfold check_nested_tags. rewrite Ho, (find_close_tag_none _ _ _ Hc). reflexivity.
Qed.

Lemma uppercase_tags_unclosed_witness :
  check_for_unclosed_tags (lit "<P>x</P>") = Err (UnclosedTag (lit "p") 0 (window (lit "<P>x</P>") 0)).
Proof.
  apply (proj1 uppercase_tags_unclosed (lit "<P>x</P>") 0 (lit "p") 2).
  - apply reaches_start.
  - vm_compute; reflexivity.
  - discriminate.
  - vm_compute; reflexivity.
  - vm_compute; reflexivity.
  - vm_compute; discriminate.
  - vm_compute; reflexivity.
  - vm_compute; reflexivity.
Defined.

Lemma validate_html_pipeline_witness :
  validate_html (fun _ => soup_p_x) default_config (lit "<p>x</p>")
  = run_first (validate_stages (fun _ => soup_p_x) default_config (lit "<p>x</p>")).
Proof.
  apply (proj1 (validate_html_pipeline (fun _ => soup_p_x) default_config (lit "<p>x</p>")
                  ltac:(discriminate))).
Defined.

Lemma validate_html_closure_scan_last_witness :
  validate_html (fun _ => soup_div) default_config (lit "<div>x") = Err (DisallowedTag "div").
Proof.
  apply (proj1 (proj2 (validate_html_closure_scan_last (fun _ => soup_div) default_config
                         (lit "<div>x") (DisallowedTag "div") ltac:(discriminate)))).
  - vm_compute; reflexivity.
  - vm_compute; reflexivity.
Defined.

(** ** Further properties of the module *)

Lemma existsb_eqb_in nm l : existsb (String.eqb nm) l = true <-> In nm l.
Proof.
  rewrite existsb_exists. split.
  - intros (x & Hx & E). apply String.eqb_eq in E. subst. exact Hx.
  - intros H. exists nm. split; [exact H | apply String.eqb_refl].
Qed.

Lemma tag_allowed_Ok_iff allowed (x : string * string * list node) :
  (let '(_, nm, _) := x in
   if existsb (String.eqb nm) allowed then Ok else Err (DisallowedTag nm)) = Ok
  <-> (let '(_, nm, _) := x in In nm allowed).
Proof.
  destruct x as [[p nm] cs]. rewrite <- existsb_eqb_in.
  destruct (existsb (String.eqb nm) allowed); split; congruence.
Qed.

Lemma tags_allowed_Ok_iff soup allowed :
  check_all_tags_are_allowed soup allowed = Ok <->
  forall p nm cs, In (p, nm, cs) (soup_elems soup) -> In nm allowed.
Proof.
  unfold check_all_tags_are_allowed. rewrite for_each_Ok, Forall_forall. split.
  - intros H p nm cs Hin. exact (proj1 (tag_allowed_Ok_iff allowed (p, nm, cs)) (H _ Hin)).
  - intros H [[p nm] cs] Hin. apply (tag_allowed_Ok_iff allowed (p, nm, cs)). exact (H _ _ _ Hin).
Qed.

(** Widening the allowed tags, or allowing root-level text, never turns an
    accepted input into a rejected one. *)
Theorem validate_html_config_monotone (parse : str -> node) (html : str)
  (tags tags' : list string) (root root' : bool)
  (Htags : incl tags tags') (Hroot : root = true -> root' = true) :
  validate_html parse {| allowed_tags := tags; is_text_at_root_level_allowed := root |} html = Ok ->
  validate_html parse {| allowed_tags := tags'; is_text_at_root_level_allowed := root' |} html = Ok.
Proof.
  destruct html as [|c html]; [reflexivity|]. unfold validate_html.
  cbn [allowed_tags is_text_at_root_level_allowed].
  intros H.
  apply seq_outcome_Ok in H as [Ha H]; cbn beta in H.
  apply seq_outcome_Ok in H as [Ht H]; cbn beta in H.
  apply seq_outcome_Ok in H as [Hl H]; cbn beta in H.
  apply seq_outcome_Ok in H as [Hp H]; cbn beta in H.
  apply seq_outcome_Ok in H as [Hr Hu]; cbn beta in Hu.
  rewrite Ha. cbn [seq_outcome].
  replace (check_all_tags_are_allowed (parse (c :: html)) tags') with Ok.
  2:{ symmetry. apply tags_allowed_Ok_iff. intros p nm cs Hin. apply Htags.
      exact (proj1 (tags_allowed_Ok_iff _ _) Ht p nm cs Hin). }
  cbn [seq_outcome]. rewrite Hl. cbn [seq_outcome]. rewrite Hp. cbn [seq_outcome].
  replace (if root' then Ok else check_for_root_level_text (parse (c :: html))) with Ok.
  2:{ destruct root'; [reflexivity|]. destruct root; [discriminate (Hroot eq_refl) | symmetry; exact Hr]. }
  cbn [seq_outcome]. exact Hu.
Qed.

(** [_check_all_tags_are_allowed] passes exactly when every descendant tag
    of the soup (the soup itself is not checked) is allowed; otherwise it
    reports the first disallowed tag in document order. *)
Theorem tags_allowed_first_disallowed soup allowed :
  (check_all_tags_are_allowed soup allowed = Ok <->
   forall p nm cs, In (p, nm, cs) (soup_elems soup) -> In nm allowed)
  /\ (forall e, check_all_tags_are_allowed soup allowed = Err e <->
      exists pre parent nm cs post,
        soup_elems soup = pre ++ (parent, nm, cs) :: post
        /\ Forall (fun x : string * string * list node => let '(_, n, _) := x in In n allowed) pre
        /\ ~ In nm allowed /\ e = DisallowedTag nm).
Proof.
  split; [apply tags_allowed_Ok_iff|]. intros e.
  unfold check_all_tags_are_allowed. rewrite for_each_Err. split.
  - intros (pre & [[parent nm] cs] & post & Hl & Hpre & Hx).
    exists pre, parent, nm, cs, post. split; [exact Hl|]. split.
    + eapply Forall_impl; [|exact Hpre]. intros x Hx'. apply tag_allowed_Ok_iff. exact Hx'.
    + cbn beta iota in Hx. rewrite <- existsb_eqb_in.
      destruct (existsb (String.eqb nm) allowed); [discriminate|].
      injection Hx as <-. split; [discriminate | reflexivity].
  - intros (pre & parent & nm & cs & post & Hl & Hpre & Hn & ->).
    exists pre, (parent, nm, cs), post. split; [exact Hl|]. split.
    + eapply Forall_impl; [|exact Hpre]. intros x Hx'. apply tag_allowed_Ok_iff. exact Hx'.
    + cbn beta iota. rewrite <- existsb_eqb_in in Hn.
      destruct (existsb (String.eqb nm) allowed); [contradiction Hn; reflexivity | reflexivity].
Qed.

Lemma flat_map_elems_texts nm pre : flat_map (elems nm) (map Text pre) = [].
Proof. induction pre as [|t pre IH]; [reflexivity | exact IH]. Qed.

(** On every soup html5lib builds, the [html] element is checked like any
    other tag, and first: an allowed list without [html] rejects every such
    soup with the error for [html].  So [validate_html] with such a list
    rejects every non-empty input whose ampersands pass. *)
Theorem html5lib_html_tag_required :
  (forall soup allowed, html5lib_shaped soup -> ~ In "html"%string allowed ->
     check_all_tags_are_allowed soup allowed = Err (DisallowedTag "html"))
  /\ (forall parse cfg html,
        html <> [] -> html5lib_shaped (parse html) ->
        ~ In "html"%string (allowed_tags cfg) ->
        check_for_unescaped_ampersand html = Ok ->
        validate_html parse cfg html = Err (DisallowedTag "html")).
Proof.
  assert (H1 : forall soup allowed, html5lib_shaped soup -> ~ In "html"%string allowed ->
     check_all_tags_are_allowed soup allowed = Err (DisallowedTag "html")).
  { intros soup allowed (pre & hcs & post & ->) Hn.
    unfold check_all_tags_are_allowed, soup_elems.
    rewrite flat_map_app, flat_map_elems_texts. cbn [app flat_map elems for_each].
    rewrite <- existsb_eqb_in in Hn.
    destruct (existsb (String.eqb "html") allowed); [contradiction Hn; reflexivity | reflexivity]. }
  split; [exact H1|].
  intros parse cfg html Hne Hs Hn Ha. destruct html as [|c html]; [contradiction|].
  unfold validate_html. rewrite Ha. cbn [seq_outcome]. rewrite (H1 _ _ Hs Hn). reflexivity.
Qed.

Lemma lower_char_name_char c :
  is_name_char c = true ->
  is_name_char (lower_char c) = true /\ is_ascii_upper (lower_char c) = false.
Proof.
  intros H. unfold lower_char. destruct (is_ascii_upper c) eqn:U; [|split; [exact H | exact U]].
  unfold is_ascii_upper in U. cbv zeta in U. apply andb_true_iff in U as [U1 U2].
  apply Nat.leb_le in U1. apply Nat.leb_le in U2.
  assert (E : nat_of_ascii (ascii_of_nat (nat_of_ascii c + 32)) = nat_of_ascii c + 32)
    by (apply nat_ascii_embedding; lia).
  unfold is_name_char, is_alnum, is_ascii_lower, is_ascii_upper. cbv zeta. rewrite E.
  replace (97 <=? nat_of_ascii c + 32) with true by (symmetry; apply Nat.leb_le; lia).
  replace (nat_of_ascii c + 32 <=? 122) with true by (symmetry; apply Nat.leb_le; lia).
  replace (nat_of_ascii c + 32 <=? 90) with false by (symmetry; apply Nat.leb_gt; lia).
  rewrite !andb_false_r, !orb_true_r. split; reflexivity.
Qed.

Lemma find_tag_end_name_chars html pos name tag_end closing :
  find_tag_end html pos = (name, tag_end, closing) ->
  Forall (fun c => is_name_char c = true /\ is_ascii_upper c = false) name.
Proof.
  unfold find_tag_end.
  destruct ((pos <? length html) && _); [|intros [= <- _ _]; constructor].
  match goal with |- context [lower (slice html ?a ?b)] =>
    set (ts := a) end.
  intros [= <- _ _]. unfold slice, lower.
  replace (ts + name_run (skipn ts html) - ts) with (name_run (skipn ts html)) by lia.
  pose proof (name_run_chars (skipn ts html)) as H.
  apply Forall_map. eapply Forall_impl; [|exact H].
  intros c Hc. apply lower_char_name_char. exact Hc.
Qed.

Lemma find_tag_end_not_special html pos name tag_end closing :
  find_tag_end html pos = (name, tag_end, closing) -> is_special_tag name = false.
Proof.
  intros F. apply find_tag_end_name_chars in F.
  destruct (is_special_tag name) eqn:S; [|reflexivity].
  unfold is_special_tag in S. apply str_in_iff in S. cbn [In] in S.
  destruct S as [<-|[<-|[]]]; apply Forall_inv in F; destruct F as [F _];
    vm_compute in F; discriminate F.
Qed.

Lemma unclosed_step_raise html p e :
  unclosed_step html p = Raise e ->
  p < length html /\ char_at html p = "<"%char /\
  ((exists name tag_end closing, find_tag_end html p = (name, tag_end, closing)
      /\ name <> [] /\ find html (lit ">") p = None /\ e = UnclosedAngle p (window html p))
   \/ (exists name tag_end, find_tag_end html p = (name, tag_end, false) /\ name <> []
      /\ is_self_closing_tag name = false /\ find html (lit ">") p <> None
      /\ check_nested_tags html name p = Err e /\ e = UnclosedTag name p (window html p))).
Proof.
  unfold unclosed_step. destruct (p <? length html) eqn:L; [|discriminate].
  apply Nat.ltb_lt in L.
  destruct (Ascii.eqb (char_at html p) "<") eqn:C; cbn [negb]; [|discriminate].
  apply Ascii.eqb_eq in C.
  destruct (find_tag_end html p) as [[name te] cl] eqn:F.
  destruct name as [|c0 name']; [discriminate|].
  rewrite (find_tag_end_not_special _ _ _ _ _ F).
  destruct (find html (lit ">") p) as [g|] eqn:G.
  - destruct (negb cl && negb (is_self_closing_tag _)) eqn:B; [|discriminate].
    apply andb_true_iff in B as [B1 B2]. apply negb_true_iff in B1, B2. subst cl.
    destruct (check_nested_tags html (c0 :: name') p) eqn:N; [discriminate|].
    intros [= <-]. split; [exact L|]. split; [exact C|]. right.
    exists (c0 :: name'), te. repeat split; try assumption; try discriminate.
    apply check_nested_tags_err. exact N.
  - intros [= <-]. split; [exact L|]. split; [exact C|]. left.
    exists (c0 :: name'), te, cl. repeat split; try assumption; discriminate.
Qed.

Lemma unclosed_loop_err html e : forall fuel p,
  Reaches html p -> unclosed_loop fuel html p = Err e ->
  exists q, Reaches html q /\ unclosed_step html q = Raise e.
Proof.
  induction fuel as [|fuel IH]; intros p Hr H; cbn [unclosed_loop] in H; [discriminate|].
  destruct (unclosed_step html p) as [|e'|q] eqn:E; [discriminate| |].
  - injection H as ->. exists p. auto.
  - apply (IH q); [apply (reaches_next _ p q Hr E) | exact H].
Qed.

Lemma unclosed_loop_ok html :
  (forall p e, Reaches html p -> unclosed_step html p <> Raise e) ->
  forall fuel p, Reaches html p -> unclosed_loop fuel html p = Ok.
Proof.
  intros H. induction fuel as [|fuel IH]; intros p Hr; cbn [unclosed_loop]; [reflexivity|].
  destruct (unclosed_step html p) as [|e|q] eqn:E; [reflexivity| |].
  - exfalso. exact (H p e Hr E).
  - apply IH. exact (reaches_next _ p q Hr E).
Qed.

(** No tag name [_find_tag_end] returns is a special tag ("!doctype",
    "!--"): its characters are alphanumerics, '-' and '_', lowercased, and
    never '!'; so the special-tag branch of [_check_for_unclosed_tags] is
    never taken.  A tag with a name is a closing tag exactly when '/'
    follows its '<'. *)
Theorem find_tag_end_shape html i name tag_end closing :
  find_tag_end html i = (name, tag_end, closing) ->
  is_special_tag name = false
  /\ (name <> [] ->
      i < length html /\ char_at html i = "<"%char
      /\ (closing = true <-> S i < length html /\ char_at html (S i) = "/"%char)).
Proof.
  intros F. split; [exact (find_tag_end_not_special _ _ _ _ _ F)|].
  intros Hne. revert F. unfold find_tag_end.
  destruct ((i <? length html) && Ascii.eqb (char_at html i) "<") eqn:E;
    [|intros [= <- _ _]; contradiction].
  apply andb_true_iff in E as [E1 E2]. apply Nat.ltb_lt in E1. apply Ascii.eqb_eq in E2.
  cbv zeta. intros [= _ _ <-]. split; [exact E1|]. split; [exact E2|].
  rewrite andb_true_iff, Nat.ltb_lt, Ascii.eqb_eq. reflexivity.
Qed.

Lemma find_tag_end_shape_witness :
  is_special_tag (lit "ul") = false
  /\ (lit "ul" <> [] ->
      0 < length (lit "</UL>") /\ char_at (lit "</UL>") 0 = "<"%char
      /\ (true = true <-> 1 < length (lit "</UL>") /\ char_at (lit "</UL>") 1 = "/"%char)).
Proof.
  apply (find_tag_end_shape (lit "</UL>") 0 (lit "ul") 4 true).
  vm_compute. reflexivity.
Defined.

(** Every error of [_check_for_unclosed_tags] is raised at a '<' the scan
    reaches that begins a tag name: either [UnclosedAngle] when no '>'
    follows, or [UnclosedTag] for an opening tag of a non-self-closing
    element; it never raises the special-tag error. *)
Theorem unclosed_scan_error_shape html e :
  check_for_unclosed_tags html = Err e ->
  exists i, Reaches html i /\ i < length html /\ char_at html i = "<"%char /\
    ((exists name tag_end closing, find_tag_end html i = (name, tag_end, closing)
        /\ name <> [] /\ find html (lit ">") i = None /\ e = UnclosedAngle i (window html i))
     \/ (exists name tag_end, find_tag_end html i = (name, tag_end, false) /\ name <> []
        /\ is_self_closing_tag name = false /\ e = UnclosedTag name i (window html i))).
Proof.
  intros H. unfold check_for_unclosed_tags in H.
  destruct (unclosed_loop_err html e _ 0 (reaches_start html) H) as (i & Hr & Hs).
  exists i. split; [exact Hr|].
  apply unclosed_step_raise in Hs as (Hi & Hc & [Ha | (name & te & F & Hne & Hsc & _ & _ & He)]).
  - auto.
  - split; [exact Hi|]. split; [exact Hc|]. right. exists name, te. auto.
Qed.

Lemma unclosed_scan_error_shape_witness :
  exists i, Reaches (lit "<b>x") i /\ i < length (lit "<b>x")
    /\ char_at (lit "<b>x") i = "<"%char /\
    ((exists name tag_end closing, find_tag_end (lit "<b>x") i = (name, tag_end, closing)
        /\ name <> [] /\ find (lit "<b>x") (lit ">") i = None
        /\ UnclosedTag (lit "b") 0 (lit "<b>x") = UnclosedAngle i (window (lit "<b>x") i))
     \/ (exists name tag_end, find_tag_end (lit "<b>x") i = (name, tag_end, false) /\ name <> []
        /\ is_self_closing_tag name = false
        /\ UnclosedTag (lit "b") 0 (lit "<b>x") = UnclosedTag name i (window (lit "<b>x") i))).
Proof.
  apply (unclosed_scan_error_shape (lit "<b>x") (UnclosedTag (lit "b") 0 (lit "<b>x"))).
  vm_compute. reflexivity.
Defined.

(** A '<' the scan reaches that begins a tag name (opening or closing)
    with no '>' at or after it makes the scan fail with [UnclosedAngle]. *)
Theorem unclosed_angle_at html i name tag_end closing :
  Reaches html i -> find_tag_end html i = (name, tag_end, closing) -> name <> [] ->
  find html (lit ">") i = None ->
  check_for_unclosed_tags html = Err (UnclosedAngle i (window html i)).
Proof.
  intros HR HF Hne Hg.
  destruct (find_tag_end_nonempty _ _ _ _ _ HF Hne) as [Hi Hc].
  rewrite (reaches_loop _ _ HR). cbn [unclosed_loop]. unfold unclosed_step.
  replace (i <? length html) with true by (symmetry; apply Nat.ltb_lt; exact Hi).
  rewrite Hc. cbn [negb Ascii.eqb]. rewrite HF.
  destruct name as [|c name']; [contradiction|].
  rewrite (find_tag_end_not_special _ _ _ _ _ HF), Hg. reflexivity.
Qed.

Lemma unclosed_angle_at_witness :
  check_for_unclosed_tags (lit "x</b") = Err (UnclosedAngle 1 (window (lit "x</b") 1)).
Proof.
  apply (unclosed_angle_at (lit "x</b") 1 (lit "b") 4 true).
  - apply (reaches_next _ 0 1); [apply reaches_start | vm_compute; reflexivity].
  - vm_compute. reflexivity.
  - discriminate.
  - vm_compute. reflexivity.
Defined.

(** The scan passes when every '<' either begins no tag name (as in
    "5 < 10"), or begins a closing tag or a self-closing tag (br, img, hr,
    input, meta, link) with a '>' at or after it: stray closing tags and
    self-closing tags never fail it. *)
Theorem unclosed_scan_passes html :
  (forall k name tag_end closing, k < length html -> char_at html k = "<"%char ->
     find_tag_end html k = (name, tag_end, closing) ->
     name = [] \/ ((closing = true \/ is_self_closing_tag name = true)
                   /\ find html (lit ">") k <> None)) ->
  check_for_unclosed_tags html = Ok.
Proof.
  intros H. unfold check_for_unclosed_tags.
  apply (unclosed_loop_ok html); [|apply reaches_start].
  intros p e _ Hs.
  apply unclosed_step_raise in Hs
    as (Hp & Hc & [(name & te & cl & F & Hne & Hg & _) | (name & te & F & Hne & Hsc & _)]).
  - destruct (H p _ _ _ Hp Hc F) as [E | [_ Hg']]; contradiction.
  - destruct (H p _ _ _ Hp Hc F) as [E | [[D|D] _]]; [contradiction | discriminate | congruence].
Qed.

Lemma unclosed_scan_passes_witness :
  check_for_unclosed_tags (lit "1 < 2<br></p>") = Ok.
Proof.
  apply unclosed_scan_passes.
  intros k name te cl Hk Hc F. vm_compute in Hk.
  do 13 (destruct k as [|k];
    [vm_compute in Hc; try discriminate Hc; vm_compute in F;
     injection F as E1 E2 E3; subst;
     first [left; reflexivity
           | right; split; [first [left; reflexivity | right; vm_compute; reflexivity]
                           | vm_compute; discriminate]] |]).
  lia.
Defined.

(** [_check_nested_tags] passes exactly when the balanced search for the
    tag at [start] closes and, if no ["<" ++ name] follows [start], the
    literal ["</" ++ name ++ ">"] follows it (its fast path requires the
    '>' right after the name). *)
Theorem check_nested_tags_iff html name start (Hname : name_ok name) :
  check_nested_tags html name start = Ok <->
  balanced_closes html name start = true
  /\ (find html (lit "<" ++ name) (S start) = None ->
      find html (lit "</" ++ name ++ lit ">") (S start) <> None).
Proof.
  split.
  - intros H. split.
    + destruct (balanced_closes html name start) eqn:B; [reflexivity|].
      rewrite (check_nested_unclosed html name start Hname B) in H. discriminate.
    + intros Ho Hc. unfold check_nested_tags in H. cbv zeta in H.
      rewrite Ho, Hc in H. discriminate.
  - intros [Hb Hf]. unfold check_nested_tags. cbv zeta.
    destruct (find html (lit "<" ++ name) (S start)) as [o|] eqn:Fo.
    + assert (Ho : o < length html).
      { apply find_some in Fo as (_ & Fo & _).
        eapply prefix_nonempty_lt; [|exact Fo]. discriminate. }
      assert (Hn : nest_loop (length html) html name 1 (S start) = 0).
      { apply (nest_loop_closes html name Hname); [lia | lia | exact Hb]. }
      destruct (find html (lit "</" ++ name ++ lit ">") (S start)) as [c|];
        [destruct (c <? o); [reflexivity|]|]; rewrite Hn; reflexivity.
    + destruct (find html (lit "</" ++ name ++ lit ">") (S start)) as [c|];
        [reflexivity | exfalso; exact (Hf eq_refl eq_refl)].
Qed.

Lemma check_nested_tags_iff_witness :
  check_nested_tags (lit "<b><b>x</b></b>") (lit "b") 0 = Ok.
Proof.
  apply (check_nested_tags_iff (lit "<b><b>x</b></b>") (lit "b") 0 ltac:(discriminate)).
  split; [vm_compute; reflexivity | vm_compute; discriminate].
Defined.

Lemma amp_loop_fuel html : forall f1 f2 pos,
  length html - pos < f1 -> length html - pos < f2 ->
  amp_loop f1 html pos = amp_loop f2 html pos.
Proof.
  induction f1 as [|f1 IH]; intros [|f2] pos H1 H2; [lia|lia|lia|]. cbn [amp_loop].
  destruct (pos <? length html) eqn:L; [|reflexivity]. apply Nat.ltb_lt in L.
  destruct (Ascii.eqb _ _); [|apply IH; lia].
  destruct (check_entity_with_ampersand html pos) as [e|s] eqn:C; [reflexivity|].
  assert (pos < s).
  { unfold check_entity_with_ampersand in C.
    destruct (find html (lit ";") (S pos)) as [q|] eqn:F; [|discriminate].
    destruct (valid_entity _); [|discriminate]. injection C as E. subst q.
    apply find_some in F. lia. }
  apply IH; lia.
Qed.

Lemma skipn_shift (a b : str) j : skipn (length a + j) (a ++ b) = skipn j b.
Proof. induction a as [|x a IH]; simpl; auto. Qed.

Lemma char_at_shift (a b : str) j : char_at (a ++ b) (length a + j) = char_at b j.
Proof. unfold char_at. induction a as [|x a IH]; simpl; auto. Qed.

Lemma char_at_app_l (a b : str) k : k < length a -> char_at (a ++ b) k = char_at a k.
Proof. intros H. unfold char_at. apply app_nth1. exact H. Qed.

Lemma find_shift (a b sub : str) k :
  find (a ++ b) sub (length a + k) = option_map (Nat.add (length a)) (find b sub k).
Proof.
  unfold find. rewrite length_app, skipn_shift.
  destruct (k <=? length b) eqn:E.
  - apply Nat.leb_le in E.
    replace (length a + k <=? length a + length b) with true
      by (symmetry; apply Nat.leb_le; lia).
    destruct (find_from (skipn k b) sub); cbn [option_map]; [f_equal; lia | reflexivity].
  - apply Nat.leb_gt in E.
    replace (length a + k <=? length a + length b) with false
      by (symmetry; apply Nat.leb_gt; lia).
    reflexivity.
Qed.

Lemma slice_shift (a b : str) x y :
  slice (a ++ b) (length a + x) (length a + y) = slice b x y.
Proof.
  unfold slice. rewrite skipn_shift.
  replace (length a + y - (length a + x)) with (y - x) by lia. reflexivity.
Qed.

Lemma slice_app_l (a b : str) x y : y <= length a -> slice (a ++ b) x y = slice a x y.
Proof.
  intros H. unfold slice. rewrite skipn_app, firstn_app, length_skipn.
  replace (y - x - (length a - x)) with 0 by lia. simpl. apply app_nil_r.
Qed.

Lemma check_entity_shift a b j :
  check_entity_with_ampersand (a ++ b) (length a + j)
  = match check_entity_with_ampersand b j with
    | inl e => inl e
    | inr s => inr (length a + s)
    end.
Proof.
  unfold check_entity_with_ampersand.
  replace (S (length a + j)) with (length a + S j) by lia.
  replace (length a + j + 50) with (length a + (j + 50)) by lia.
  rewrite find_shift, slice_shift.
  destruct (find b (lit ";") (S j)) as [s|]; cbn [option_map]; [|reflexivity].
  rewrite slice_shift. destruct (valid_entity _); reflexivity.
Qed.

Lemma amp_loop_shift a b : forall fuel j,
  amp_loop fuel (a ++ b) (length a + j) = amp_loop fuel b j.
Proof.
  induction fuel as [|fuel IH]; intros j; cbn [amp_loop]; [reflexivity|].
  rewrite length_app, char_at_shift, check_entity_shift.
  replace (length a + j <? length a + length b) with (j <? length b).
  2:{ destruct (j <? length b) eqn:E; symmetry;
      [apply Nat.ltb_lt in E; apply Nat.ltb_lt | apply Nat.ltb_ge in E; apply Nat.ltb_ge]; lia. }
  destruct (j <? length b); [|reflexivity].
  destruct (Ascii.eqb _ _).
  - destruct (check_entity_with_ampersand b j) as [e|s]; [reflexivity|].
    replace (S (length a + s)) with (length a + S s) by lia. apply IH.
  - replace (S (length a + j)) with (length a + S j) by lia. apply IH.
Qed.

Lemma amp_loop_app a b : forall fuel pos,
  pos <= length a -> length a - pos < fuel -> amp_loop fuel a pos = Ok ->
  forall f, length (a ++ b) - pos < f ->
  amp_loop f (a ++ b) pos = amp_loop (S (length b)) b 0.
Proof.
  induction fuel as [|fuel IH]; intros pos Hp Hf Ha f Hf'; [lia|].
  rewrite length_app in Hf'. destruct f as [|f]; [lia|].
  destruct (Nat.eq_dec pos (length a)) as [->|Hne].
  - rewrite <- (Nat.add_0_r (length a)). rewrite amp_loop_shift.
    apply amp_loop_fuel; lia.
  - cbn [amp_loop] in Ha |- *.
    replace (pos <? length (a ++ b)) with true
      by (symmetry; apply Nat.ltb_lt; rewrite length_app; lia).
    replace (pos <? length a) with true in Ha by (symmetry; apply Nat.ltb_lt; lia).
    rewrite char_at_app_l by lia.
    destruct (Ascii.eqb (char_at a pos) "&").
    + destruct (check_entity_with_ampersand a pos) as [e|s] eqn:C; [discriminate|].
      unfold check_entity_with_ampersand in C.
      destruct (find a (lit ";") (S pos)) as [q|] eqn:F; [|discriminate].
      destruct (valid_entity (slice a (S pos) q)) eqn:V; [|discriminate].
      injection C as E. subst q.
      apply find_semicolon_next in F as Hn. destruct Hn as (Hn1 & Hn2 & Hn3).
      assert (C' : check_entity_with_ampersand (a ++ b) pos = inr s).
      { unfold check_entity_with_ampersand.
        replace (find (a ++ b) (lit ";") (S pos)) with (Some s).
        2:{ symmetry. apply find_semicolon_next. split; [rewrite length_app; lia|].
            split; [rewrite char_at_app_l by lia; exact Hn2|].
            intros k Hk. rewrite char_at_app_l by lia. apply Hn3. exact Hk. }
        rewrite slice_app_l by lia. rewrite V. reflexivity. }
      rewrite C'. apply IH; [lia | lia | exact Ha | rewrite length_app; lia].
    + apply IH; [lia | lia | exact Ha | rewrite length_app; lia].
Qed.

(** If the ampersand scan passes on [a], it gives on [a ++ b] the same
    result as on [b], error included: entities of [a] end inside [a], and
    the scan resumes at the start of [b]. *)
Theorem ampersand_scan_concat a b :
  check_for_unescaped_ampersand a = Ok ->
  check_for_unescaped_ampersand (a ++ b) = check_for_unescaped_ampersand b.
Proof.
  intros H. unfold check_for_unescaped_ampersand in *.
  apply (amp_loop_app a b (S (length a)) 0); [lia | lia | exact H | rewrite length_app; lia].
Qed.

Lemma ampersand_scan_concat_witness :
  check_for_unescaped_ampersand (lit "AT&amp;T " ++ lit "x & y")
  = check_for_unescaped_ampersand (lit "x & y").
Proof. apply ampersand_scan_concat. vm_compute. reflexivity. Defined.

Lemma amp_loop_err_shape fuel html pos e :
  amp_loop fuel html pos = Err e ->
  (exists s, e = UnescapedAmpersand s) \/ (exists en s, e = InvalidEntity en s).
Proof.
  revert pos. induction fuel as [|fuel IH]; intros pos H; cbn [amp_loop] in H; [discriminate|].
  destruct (pos <? length html); [|discriminate].
  destruct (Ascii.eqb _ _); [|exact (IH _ H)].
  unfold check_entity_with_ampersand in H.
  destruct (find html (lit ";") (S pos)) as [semi|]; [|injection H as <-; left; eauto].
  destruct (valid_entity _); [exact (IH _ H) | injection H as <-; right; eauto].
Qed.

Lemma tags_err_shape soup allowed e :
  check_all_tags_are_allowed soup allowed = Err e -> exists nm, e = DisallowedTag nm.
Proof.
  intros H. apply for_each_Err_in in H as ([[p nm] cs] & _ & H).
  destruct (existsb (String.eqb nm) allowed); [discriminate|]. injection H as <-. eauto.
Qed.

Lemma list_structure_err_shape soup e :
  check_list_structure soup = Err e ->
  (exists l c, e = MalformedList l c) \/ (exists p, e = MisplacedListItem p).
Proof.
  unfold check_list_structure.
  destruct (for_each _ (soup_elems soup)) eqn:A; cbn [seq_outcome].
  - intros H. apply for_each_Err_in in H as ([[p nm] cs] & _ & H).
    destruct (String.eqb nm "li"); [|discriminate].
    destruct (is_list_name p); [discriminate|]. injection H as <-. eauto.
  - intros [= <-]. apply for_each_Err_in in A as ([[p nm] cs] & _ & A).
    destruct (is_list_name nm); [|discriminate].
    apply for_each_Err_in in A as ([cn ccs|t] & _ & A); [|discriminate].
    destruct (String.eqb cn "li"); [discriminate|]. injection A as <-. eauto.
Qed.

(** [validate_html] raises only the module's own messages, whatever soup
    the parser builds: an entity, tag, list, paragraph, root-text,
    angle-bracket or unclosed-tag error, never the special-tag error; and
    the [AttributeError] of [body.children] only when root-level text is not
    allowed and the soup has no [body] (html5lib builds none for a frameset
    document). *)
Theorem validate_html_errors (parse : str -> node) cfg html e :
  validate_html parse cfg html = Err e ->
  (exists s, e = UnescapedAmpersand s) \/ (exists en s, e = InvalidEntity en s)
  \/ (exists nm, e = DisallowedTag nm) \/ (exists l c, e = MalformedList l c)
  \/ (exists p, e = MisplacedListItem p) \/ e = EmptyParagraph \/ e = RootLevelText
  \/ (exists p s, e = UnclosedAngle p s) \/ (exists nm p s, e = UnclosedTag nm p s)
  \/ (e = NoneHasNoChildren /\ is_text_at_root_level_allowed cfg = false
      /\ find_body (parse html) = None).
Proof.
  destruct html as [|c html]; [discriminate|]. unfold validate_html.
  destruct (check_for_unescaped_ampersand (c :: html)) eqn:A; cbn [seq_outcome];
    [|intros [= <-]; apply amp_loop_err_shape in A; tauto].
  destruct (check_all_tags_are_allowed _ _) eqn:T; cbn [seq_outcome];
    [|intros [= <-]; apply tags_err_shape in T; tauto].
  destruct (check_list_structure _) eqn:L; cbn [seq_outcome];
    [|intros [= <-]; apply list_structure_err_shape in L; tauto].
  destruct (check_paragraphs _) eqn:P; cbn [seq_outcome];
    [|intros [= <-]; apply paragraphs_err in P; tauto].
  destruct (if is_text_at_root_level_allowed cfg then Ok
            else check_for_root_level_text (parse (c :: html))) eqn:R;
    cbn [seq_outcome].
  - intros H. unfold check_for_unclosed_tags in H.
    destruct (unclosed_loop_err _ e _ 0 (reaches_start _) H) as (i & _ & Hs).
    apply unclosed_step_raise in Hs
      as (_ & _ & [(name & te & cl & _ & _ & _ & ->) | (name & te & _ & _ & _ & _ & _ & ->)]);
      [do 7 right; left; eauto | do 8 right; left; eauto].
  - intros [= <-]. destruct (is_text_at_root_level_allowed cfg) eqn:Cf; [discriminate|].
    unfold check_for_root_level_text in R.
    destruct (find_body (parse (c :: html))) as [children|] eqn:B.
    + apply for_each_Err_in in R as ([nm cs|s] & _ & R); [discriminate|].
      destruct (strip s); [discriminate|]. injection R as <-. tauto.
    + injection R as <-. do 9 right. auto.
Qed.

Lemma validate_html_errors_witness :
  (exists s, NoneHasNoChildren = UnescapedAmpersand s)
  \/ (exists en s, NoneHasNoChildren = InvalidEntity en s)
  \/ (exists nm, NoneHasNoChildren = DisallowedTag nm)
  \/ (exists l c, NoneHasNoChildren = MalformedList l c)
  \/ (exists p, NoneHasNoChildren = MisplacedListItem p)
  \/ NoneHasNoChildren = EmptyParagraph \/ NoneHasNoChildren = RootLevelText
  \/ (exists p s, NoneHasNoChildren = UnclosedAngle p s)
  \/ (exists nm p s, NoneHasNoChildren = UnclosedTag nm p s)
  \/ (NoneHasNoChildren = NoneHasNoChildren
      /\ is_text_at_root_level_allowed config_frameset = false
      /\ find_body ((fun _ => soup_frameset) (lit "<frameset></frameset>")) = None).
Proof.
  apply (validate_html_errors (fun _ => soup_frameset) config_frameset
           (lit "<frameset></frameset>")).
  vm_compute. reflexivity.
Defined.

Lemma validate_html_config_monotone_witness :
  validate_html (fun _ => soup_p_x)
    {| allowed_tags := "div"%string :: default_allowed_tags; is_text_at_root_level_allowed := true |}
    (lit "<p>x</p>") = Ok.
Proof.
  apply (validate_html_config_monotone (fun _ => soup_p_x) (lit "<p>x</p>")
           default_allowed_tags ("div"%string :: default_allowed_tags) false true).
  - intros x H. right. exact H.
  - intros _. reflexivity.
  - vm_compute. reflexivity.
Defined.
